(** * Synaptic-Flow-AD: parameter traversal core and ResNet plan

    A shallow embedding of [Utils/generator.py] (mask discovery, the
    trainable / prunable predicates, the two parameter traversals) and of
    [Models/lottery_resnet.py] ([_plan], the constructors of [Block] and
    [ResNet], the named networks, [ResNet2] over [BasicBlock2]), together
    with the part of [torch.nn.Module] these functions call.

    Line 1 of [generator.py] binds the layer taxonomy under the name
    [layers_class_class]; the bodies of [trainable] and [prunable] read it
    under the name [layers_class], which the file binds nowhere.  The
    embedding keeps the namespace of the file explicit, so that reading an
    unbound name raises [NameError] as it does in Python; [masks] reads no
    such name.  The taxonomy itself lives in the [Layers] package, which is
    not part of the sources at hand: a module carries the tag of the
    [layers_class] class it is an instance of. *)

From Stdlib Require Import List String Ascii Bool ZArith Lia PeanoNat.
Import ListNotations.
Local Open Scope string_scope.
Local Open Scope list_scope.

Set Implicit Arguments.

(** ** Python values the traversals touch *)

(** A tensor is known to the traversals only through its object identity
    (Python's [is], membership in a [set]); its contents are never read. *)
Definition tensor := nat.

(** Exceptions that the modelled code can raise. *)
Inductive exn : Type :=
| AttributeError
| ValueError
| NameError.

(** The outcome of evaluating the attribute access [module.bias]: the
    attribute may be absent ([AttributeError]), hold [None], or hold a
    tensor.  Any object that is not a tensor behaves as [None] under
    [param is not module.bias]. *)
Inductive attr : Type :=
| AttrMissing
| AttrNone
| AttrTensor (t : tensor).

(** [x is a] for a tensor [x] and an attribute value [a]. *)
Definition is_ (x : tensor) (a : attr) : bool :=
  match a with
  | AttrTensor t => Nat.eqb x t
  | _ => false
  end.

(** Python's [sub in s] on strings. *)
Fixpoint str_in (sub s : string) : bool :=
  String.prefix sub s ||
  match s with
  | EmptyString => false
  | String _ s' => str_in sub s'
  end.

(** ** Generators that may raise

    A generator run to exhaustion: the items it yields, then the exception
    that ended it, if any.  Items yielded before an exception have already
    reached the consumer. *)
Definition gen (A : Type) : Type := (list A * option exn)%type.

Definition yield_ {A} (x : A) : gen A := ([x], None).
Definition skip {A} : gen A := ([], None).
Definition raise {A} (e : exn) : gen A := ([], Some e).

Definition seq_gen {A} (g1 g2 : gen A) : gen A :=
  match snd g1 with
  | Some e => g1
  | None => (fst g1 ++ fst g2, snd g2)
  end.

(** [for x in xs: body(x)] *)
Fixpoint for_ {A B} (xs : list A) (body : A -> gen B) : gen B :=
  match xs with
  | [] => skip
  | x :: xs' => seq_gen (body x) (for_ xs' body)
  end.

(** A call that returns a value or raises: the next step runs on the value
    and an exception passes through. *)
Definition bind_exn {A B} (r : exn + A) (k : A -> exn + B) : exn + B :=
  match r with
  | inl e => inl e
  | inr a => k a
  end.

(** [for x in filter(lambda p: pred(p), xs): body(x)].  [filter] is lazy:
    [pred] runs on an element when the loop asks for the next one, so an
    exception of [pred] ends the loop there, and the body has already run on
    the elements kept before. *)
Definition for_filtered {A B} (pred : A -> exn + bool) (xs : list A)
           (body : A -> gen B) : gen B :=
  for_ xs (fun x =>
             match pred x with
             | inl e => raise e
             | inr true => body x
             | inr false => skip
             end).

(** ** The part of [torch.nn.Module] used by the traversals *)
Module nn.

(** The [layers_class] class a module is an instance of; [Other] covers
    containers ([nn.Sequential], [Block], [ResNet]) and plain torch layers. *)
Inductive kind : Type :=
| Linear | Conv2d | BatchNorm1d | BatchNorm2d | Identity1d | Identity2d
| Other.

Definition kind_eqb (a b : kind) : bool :=
  match a, b with
  | Linear, Linear | Conv2d, Conv2d | BatchNorm1d, BatchNorm1d
  | BatchNorm2d, BatchNorm2d | Identity1d, Identity1d
  | Identity2d, Identity2d | Other, Other => true
  | _, _ => false
  end.

Local Unset Elimination Schemes.

(** A module: its class tag, its ordered dictionaries [_parameters],
    [_buffers] (entries may hold [None]) and [_modules] (the entries that
    hold a module; [None] children are skipped by every traversal), and what
    [module.bias] evaluates to.  Children are distinct objects: the model is
    a tree. *)
Inductive module : Type :=
  Layer {
    kind_of : kind;
    _parameters : list (string * option tensor);
    _buffers : list (string * option tensor);
    getattr_bias : attr;
    _modules : list (string * module)
  }.

Section module_ind.
Variable P : module -> Prop.
Hypothesis P_layer : forall k ps bs b cs,
    Forall (fun nc => P (snd nc)) cs -> P (Layer k ps bs b cs).

Fixpoint module_ind (m : module) : P m :=
  match m with
  | Layer k ps bs b cs =>
      P_layer k ps bs b
        ((fix go (l : list (string * module)) :
            Forall (fun nc => P (snd nc)) l :=
            match l with
            | [] => Forall_nil _
            | nc :: l' => Forall_cons nc (module_ind (snd nc)) (go l')
            end) cs)
  end.
End module_ind.

(** [isinstance(module, (c1, c2))] *)
Definition isinstance (m : module) (classes : list kind) : bool :=
  existsb (kind_eqb (kind_of m)) classes.

(** [prefix + ('.' if prefix else '') + name] *)
Definition join_name (prefix name : string) : string :=
  match prefix with
  | EmptyString => name
  | _ => (prefix ++ "." ++ name)%string
  end.

(** [named_modules(prefix)]: the module itself, then each child's modules,
    depth first, in the order of [_modules]. *)
Fixpoint named_modules (prefix : string) (m : module)
  : list (string * module) :=
  (prefix, m) ::
  flat_map (fun nc => named_modules (join_name prefix (fst nc)) (snd nc))
           (_modules m).

(** [modules()] *)
Definition modules (m : module) : list module :=
  map snd (named_modules "" m).

(** The loop of [_named_members]: entries holding [None] or a tensor that is
    already in [memo] are skipped; every yielded tensor joins [memo]. *)
Fixpoint _named_members_loop (memo : list tensor)
         (items : list (string * option tensor)) : list (string * tensor) :=
  match items with
  | [] => []
  | (name, None) :: rest => _named_members_loop memo rest
  | (name, Some v) :: rest =>
      if existsb (Nat.eqb v) memo then _named_members_loop memo rest
      else (name, v) :: _named_members_loop (v :: memo) rest
  end.

(** The members of one module, under their qualified names. *)
Definition qualified (get : module -> list (string * option tensor))
           (pm : string * module) : list (string * option tensor) :=
  map (fun kv => (join_name (fst pm) (fst kv), snd kv)) (get (snd pm)).

(** [_named_members(get_members_fn, prefix='', recurse)] *)
Definition _named_members (get : module -> list (string * option tensor))
           (m : module) (recurse : bool) : list (string * tensor) :=
  let mods := if recurse then named_modules "" m else [("", m)] in
  _named_members_loop [] (flat_map (qualified get) mods).

(** [named_buffers()] (recursive by default) *)
Definition named_buffers (m : module) : list (string * tensor) :=
  _named_members _buffers m true.

(** [parameters(recurse)] *)
Definition parameters (m : module) (recurse : bool) : list tensor :=
  map snd (_named_members _parameters m recurse).

End nn.

(** ** [Utils/generator.py] *)
Module generator.
Import nn.

(** *** The names the file binds

    A function reads its global names in the namespace of the file when it
    runs; [globals] tells which names are bound there. *)
Definition globals : Type := string -> bool.

(** What [generator.py] binds: line 1,
    [from Layers import layers_class_class], and its five function
    definitions. *)
Definition generator_globals : globals :=
  fun name =>
    existsb (String.eqb name)
            ["layers_class_class"; "masks"; "trainable"; "prunable";
             "parameters"; "masked_parameters"].

(** The same namespace with [layers_class] bound as well, the way line 10
    of [Models/lottery_resnet.py], [from Layers import layers_class], binds
    it in that file. *)
Definition layers_class_bound : globals :=
  fun name => String.eqb name "layers_class" || generator_globals name.

(** Reading a global name: [NameError] when it is not bound. *)
Definition load_global (g : globals) (name : string) : exn + unit :=
  if g name then inr tt else inl NameError.

(** [isinstance(module, (layers_class.A, layers_class.B))]: the tuple of
    classes is built before the call, by reading the global
    [layers_class]. *)
Definition isinstance_layers_class (g : globals) (module : nn.module)
           (classes : list kind) : exn + bool :=
  bind_exn (load_global g "layers_class")
           (fun _ => inr (isinstance module classes)).

(** *** The functions, in a namespace [g] *)

Definition masks (module : nn.module) : list tensor :=
  map snd (filter (fun nb => str_in "mask" (fst nb)) (named_buffers module)).

Definition trainable_in (g : globals) (module : nn.module) : exn + bool :=
  bind_exn (isinstance_layers_class g module [Identity1d; Identity2d])
           (fun b => inr (negb b)).

Definition prunable_in (g : globals) (module : nn.module)
           (batchnorm residual : bool) : exn + bool :=
  bind_exn (isinstance_layers_class g module [Linear; Conv2d])
    (fun isprunable =>
  bind_exn (if batchnorm
            then bind_exn (isinstance_layers_class g module
                                                   [BatchNorm1d; BatchNorm2d])
                          (fun b => inr (isprunable || b))
            else inr isprunable)
    (fun isprunable =>
  bind_exn (if residual
            then bind_exn (isinstance_layers_class g module
                                                   [Identity1d; Identity2d])
                          (fun b => inr (isprunable || b))
            else inr isprunable)
    (fun isprunable =>
  inr isprunable))).

Definition parameters_in (g : globals) (model : nn.module) : gen tensor :=
  for_filtered (fun p => trainable_in g p) (modules model)
    (fun module =>
       for_ (nn.parameters module false) (fun param => yield_ param)).

(** The body of the outer loop of [masked_parameters] for one retained
    module: the loop over [zip(masks(module), module.parameters(recurse=False))].
    [module.bias] is evaluated once per zipped pair. *)
Definition module_pairs (module : nn.module) (bias : bool)
  : gen (tensor * tensor) :=
  for_ (combine (masks module) (nn.parameters module false))
    (fun mp =>
       let '(mask, param) := mp in
       match getattr_bias module with
       | AttrMissing => raise AttributeError
       | b => if negb (is_ param b) || bias
              then yield_ (mask, param) else skip
       end).

Definition masked_parameters_in (g : globals) (model : nn.module)
           (bias batchnorm residual : bool) : gen (tensor * tensor) :=
  for_filtered (fun p => prunable_in g p batchnorm residual) (modules model)
    (fun module => module_pairs module bias).

(** *** The functions of the file, in the namespace the file has *)

Definition trainable (module : nn.module) : exn + bool :=
  trainable_in generator_globals module.

Definition prunable (module : nn.module) (batchnorm residual : bool)
  : exn + bool :=
  prunable_in generator_globals module batchnorm residual.

Definition parameters (model : nn.module) : gen tensor :=
  parameters_in generator_globals model.

Definition masked_parameters (model : nn.module)
           (bias batchnorm residual : bool) : gen (tensor * tensor) :=
  masked_parameters_in generator_globals model bias batchnorm residual.

End generator.

(** ** The bodies once [layers_class] resolves

    What the bodies of [trainable], [prunable], [parameters] and
    [masked_parameters] compute in any namespace that binds [layers_class]
    (lemmas [trainable_in_bound] to [masked_parameters_in_bound] below):
    there the predicates are total, and the lazy [filter] is a filter. *)
Module bound.
Import nn.

Definition trainable (module : nn.module) : bool :=
  negb (isinstance module [Identity1d; Identity2d]).

Definition prunable (module : nn.module) (batchnorm residual : bool) : bool :=
  let isprunable := isinstance module [Linear; Conv2d] in
  let isprunable :=
    if batchnorm then isprunable || isinstance module [BatchNorm1d; BatchNorm2d]
    else isprunable in
  let isprunable :=
    if residual then isprunable || isinstance module [Identity1d; Identity2d]
    else isprunable in
  isprunable.

Definition parameters (model : nn.module) : list tensor :=
  flat_map (fun module => nn.parameters module false)
           (filter (fun p => trainable p) (modules model)).

Definition masked_parameters (model : nn.module)
           (bias batchnorm residual : bool) : gen (tensor * tensor) :=
  for_ (filter (fun p => prunable p batchnorm residual) (modules model))
    (fun module => generator.module_pairs module bias).

End bound.

(** ** [Models/lottery_resnet.py] *)
Module lottery_resnet.

(** Python's [%] and [//] on integers are floor modulo and floor division,
    as [Z.modulo] and [Z.div] are. *)
Definition _plan (D W : Z) : exn + list (Z * Z) :=
  if negb ((D - 2) mod 3 =? 0)%Z then inl ValueError
  else
    let D := ((D - 2) / 6)%Z in
    inr [(W, D); (2 * W, D); (4 * W, D)]%Z.

End lottery_resnet.

(** ** Vocabulary of the specification *)

(** The entries of an ordered dictionary that hold a tensor. *)
Fixpoint somes (items : list (string * option tensor))
  : list (string * tensor) :=
  match items with
  | [] => []
  | (name, None) :: rest => somes rest
  | (name, Some v) :: rest => (name, v) :: somes rest
  end.

(** Depth-first, declaration-order listing of the modules of a tree. *)
Fixpoint dfs (m : nn.module) : list nn.module :=
  m :: flat_map (fun nc => dfs (snd nc)) (nn._modules m).

(** Depth-first, declaration-order listing of the buffers registered
    anywhere in the subtree of [m], each under its qualified name. *)
Fixpoint subtree_buffers (prefix : string) (m : nn.module)
  : list (string * tensor) :=
  somes (nn.qualified nn._buffers (prefix, m)) ++
  flat_map (fun nc => subtree_buffers (nn.join_name prefix (fst nc)) (snd nc))
           (nn._modules m).

(** A buffer name that follows the mask naming convention. *)
Definition mask_named (nb : string * tensor) : bool := str_in "mask" (fst nb).

(** The masks a module owns itself: what [named_buffers(recurse=False)]
    would report, restricted to mask names. *)
Definition own_masks (m : nn.module) : list tensor :=
  map snd (filter mask_named (nn._named_members nn._buffers m false)).

(** The modules [masked_parameters] retains when [layers_class] resolves,
    in traversal order. *)
Definition retained (model : nn.module) (batchnorm residual : bool)
  : list nn.module :=
  filter (fun p => bound.prunable p batchnorm residual) (nn.modules model).



(** The data model of the specification: a module is a leaf layer, which
    has no child, or a container, which owns no parameter. *)
Definition in_data_model (m : nn.module) : Prop :=
  nn._modules m = [] \/ nn.parameters m false = [].

(** The pairs the zip of one module produces, before the bias filter. *)
Definition matched (m : nn.module) : list (tensor * tensor) :=
  combine (generator.masks m) (nn.parameters m false).

(** A zipped pair whose parameter is the module's bias tensor. *)
Definition is_bias_pair (m : nn.module) (mp : tensor * tensor) : bool :=
  is_ (snd mp) (nn.getattr_bias m).

(** A module that owns a bias tensor which the zip matched with a mask. *)
Definition owns_bias_with_mask (m : nn.module) : bool :=
  existsb (is_bias_pair m) (matched m).

(** A module for which mask discovery finds at least one mask. *)
Definition has_masks (m : nn.module) : bool :=
  match generator.masks m with
  | [] => false
  | _ :: _ => true
  end.

(** The attribute contract of the layer taxonomy: a retained module whose
    zip produces a pair exposes a [bias] attribute. *)
Definition bias_contract (model : nn.module) (batchnorm residual : bool)
  : Prop :=
  forall m, In m (retained model batchnorm residual) ->
            matched m <> [] -> nn.getattr_bias m <> AttrMissing.

(** ** Sequences of calls on a model *)

Inductive op : Type :=
| OpMasks
| OpParameters
| OpMaskedParameters (bias batchnorm residual : bool).

Inductive outcome : Type :=
| Tensors (l : list tensor)
| Yielded (g : gen tensor)
| Pairs (g : gen (tensor * tensor)).

Definition call (o : op) (model : nn.module) : outcome :=
  match o with
  | OpMasks => Tensors (generator.masks model)
  | OpParameters => Yielded (generator.parameters model)
  | OpMaskedParameters b bn r =>
      Pairs (generator.masked_parameters model b bn r)
  end.

(** What happens to a model over time: a traversal is called on it, or some
    other code mutates the tree. *)
Inductive event : Type :=
| Call (o : op)
| Mutate (f : nn.module -> nn.module).

(** The log of the calls of a history, each with what it yielded. *)
Fixpoint run (evs : list event) (model : nn.module) : list (op * outcome) :=
  match evs with
  | [] => []
  | Call o :: evs' => (o, call o model) :: run evs' model
  | Mutate f :: evs' => run evs' (f model)
  end.

(** ** Example models *)

(** The two-layer toy model: a convolution (weight 1, no bias, mask 2) and a
    batch normalisation (weight 3, bias 4, running statistics, no mask) in a
    container. *)
Definition toy_conv : nn.module :=
  nn.Layer nn.Conv2d [("weight", Some 1); ("bias", None)]
           [("weight_mask", Some 2)] AttrNone [].

Definition toy_bn : nn.module :=
  nn.Layer nn.BatchNorm2d [("weight", Some 3); ("bias", Some 4)]
           [("running_mean", Some 5); ("running_var", Some 6);
            ("num_batches_tracked", Some 7)] (AttrTensor 4) [].

Definition toy_model : nn.module :=
  nn.Layer nn.Other [] [] AttrMissing [("0", toy_conv); ("1", toy_bn)].

(** A linear layer with weight 1, bias 2 and a mask for each (3 and 4). *)
Definition masked_linear : nn.module :=
  nn.Layer nn.Linear [("weight", Some 1); ("bias", Some 2)]
           [("weight_mask", Some 3); ("bias_mask", Some 4)] (AttrTensor 2) [].

(** An Identity layer with a weight of its own (9) above a linear layer. *)
Definition identity_over_linear : nn.module :=
  nn.Layer nn.Identity2d [("weight", Some 9)] [("weight_mask", Some 8)]
           AttrMissing [("inner", masked_linear)].

(** A prunable module with a parameter and no buffer of its own, whose child
    owns a mask. *)
Definition conv_with_child : nn.module :=
  nn.Layer nn.Conv2d [("weight", Some 1)] [] AttrNone
           [("aux", nn.Layer nn.Other [] [("weight_mask", Some 2)]
                             AttrMissing [])].

(** A prunable layer with two masks and one parameter. *)
Definition two_masks_one_param : nn.module :=
  nn.Layer nn.Conv2d [("weight", Some 1); ("bias", None)]
           [("weight_mask", Some 2); ("bias_mask", Some 3)] AttrNone [].

(** A container whose child is registered under a name that contains
    "mask"; the child owns a buffer with an unrelated name. *)
Definition masked_path : nn.module :=
  nn.Layer nn.Other [] [] AttrMissing
           [("mask_head", nn.Layer nn.Other [] [("running_mean", Some 5)]
                                   AttrMissing [])].

(** One tensor registered twice: under an unrelated name on the root and
    under a mask name on a child. *)
Definition shared_buffer : nn.module :=
  nn.Layer nn.Other [] [("scale", Some 5)] AttrMissing
           [("0", nn.Layer nn.Other [] [("weight_mask", Some 5)]
                           AttrMissing [])].

(** Registering one more buffer on the root. *)
Definition add_mask (t : tensor) (m : nn.module) : nn.module :=
  nn.Layer (nn.kind_of m) (nn._parameters m)
           (nn._buffers m ++ [("extra_mask", Some t)])
           (nn.getattr_bias m) (nn._modules m).

(** ** Further vocabulary *)

(** A module at which the loop over the zip raises: its zip is not empty
    and [module.bias] does not resolve. *)
Definition offending (m : nn.module) : bool :=
  match matched m, nn.getattr_bias m with
  | _ :: _, AttrMissing => true
  | _, _ => false
  end.

(** The zip of one module after the bias filter. *)
Definition yielded_by (bias : bool) (m : nn.module) : list (tensor * tensor) :=
  filter (fun mp => negb (is_bias_pair m mp) || bias) (matched m).

(** The qualified names under prefix [P] end with those under prefix [R]. *)
Definition name_suffix (P R : string) : Prop :=
  forall k, exists s, nn.join_name P k = (s ++ nn.join_name R k)%string.

(** ** [Models/lottery_resnet.py]: the constructors *)
Module lottery_resnet_model.

(** What a constructor can raise: the [IndexError] of [plan[0]] on an empty
    plan, or an exception of [_plan]. *)
Inductive error : Type :=
| IndexError
| Raised (e : exn).

(** A layer as it is constructed: the class and the arguments of the call.
    [padding] is [None] where the call leaves it out.  [Linear] is
    [layers_class.Linear], [torch_Linear] is [nn.Linear]. *)
Local Unset Elimination Schemes.

Inductive layer : Type :=
| Conv2d (in_channels out_channels kernel_size stride : Z)
         (padding : option Z) (bias : bool)
| BatchNorm2d (num_features : Z)
| Identity2d (num_features : Z)
| Linear (in_features out_features : Z)
| torch_Linear (in_features out_features : Z)
| Sequential (layers : list layer).

Local Set Elimination Schemes.

(** The attributes [Block.__init__] assigns. *)
Record block : Type := {
  conv1 : layer;
  bn1 : layer;
  conv2 : layer;
  bn2 : layer;
  shortcut : layer
}.

(** [Block(f_in, f_out, downsample)] *)
Definition Block (f_in f_out : Z) (downsample : bool) : block :=
  let stride := if downsample then 2%Z else 1%Z in
  {| conv1 := Conv2d f_in f_out 3 stride (Some 1%Z) false;
     bn1 := BatchNorm2d f_out;
     conv2 := Conv2d f_out f_out 3 1 (Some 1%Z) false;
     bn2 := BatchNorm2d f_out;
     shortcut :=
       if downsample || negb (f_in =? f_out)%Z
       then Sequential [Conv2d f_in f_out 1 2 None false; BatchNorm2d f_out]
       else Identity2d f_in |}.

(** The attributes [ResNet.__init__] assigns. *)
Record resnet : Type := {
  conv : layer;
  bn : layer;
  blocks : list block;
  fc : layer
}.

(** [range(n)] and [enumerate(l)] *)
Definition range (n : Z) : list nat := seq 0 (Z.to_nat n).

Definition enumerate {A} (l : list A) : list (nat * A) :=
  combine (seq 0 (List.length l)) l.

(** The inner loop of [ResNet.__init__], over the blocks of one segment; the
    state is [current_filters] and the list [blocks]. *)
Fixpoint block_loop (segment_index : nat) (filters : Z)
         (block_indices : list nat) (st : Z * list block) : Z * list block :=
  match block_indices with
  | [] => st
  | block_index :: rest =>
      let '(current_filters, blocks) := st in
      let downsample :=
        (0 <? segment_index)%nat && (block_index =? 0)%nat in
      block_loop segment_index filters rest
                 (filters, blocks ++ [Block current_filters filters downsample])
  end.

(** The outer loop, over the segments of the plan. *)
Fixpoint segment_loop (segments : list (nat * (Z * Z)))
         (st : Z * list block) : Z * list block :=
  match segments with
  | [] => st
  | (segment_index, (filters, num_blocks)) :: rest =>
      segment_loop rest
                   (block_loop segment_index filters (range num_blocks) st)
  end.

(** [ResNet(plan, num_classes, dense_classifier)], up to the weight
    initialisation, which builds no layer.  A layer is recorded with the
    arguments of its constructor; the sizes are those torch accepts, which
    are not negative (on a negative size a constructor of torch raises
    [RuntimeError] when it allocates the weight). *)
Definition ResNet (plan : list (Z * Z)) (num_classes : Z)
           (dense_classifier : bool) : error + resnet :=
  match plan with
  | [] => inl IndexError
  | (filters0, _) :: _ =>
      let current_filters := filters0 in
      let conv := Conv2d 3 current_filters 3 1 (Some 1%Z) false in
      let bn := BatchNorm2d current_filters in
      let blocks := snd (segment_loop (enumerate plan) (current_filters, [])) in
      let last_filters := fst (last plan (0%Z, 0%Z)) in
      let fc := Linear last_filters num_classes in
      let fc := if dense_classifier
                then torch_Linear last_filters num_classes else fc in
      inr {| conv := conv; bn := bn; blocks := blocks; fc := fc |}
  end.

(** [_resnet(arch, plan, num_classes, dense_classifier, pretrained=False)] *)
Definition _resnet (plan : list (Z * Z)) (num_classes : Z)
           (dense_classifier : bool) : error + resnet :=
  ResNet plan num_classes dense_classifier.

(** The body the named constructors share: [plan = _plan(D, W)], then
    [_resnet] on it. *)
Definition cifar_resnet (D W : Z) (num_classes : Z) (dense_classifier : bool)
  : error + resnet :=
  match lottery_resnet._plan D W with
  | inl e => inl (Raised e)
  | inr plan => _resnet plan num_classes dense_classifier
  end.

Definition resnet20 := cifar_resnet 20 16.
Definition resnet32 := cifar_resnet 32 16.
Definition resnet44 := cifar_resnet 44 16.
Definition resnet56 := cifar_resnet 56 16.
Definition resnet110 := cifar_resnet 110 16.
Definition resnet1202 := cifar_resnet 1202 16.
Definition wide_resnet20 := cifar_resnet 20 32.
Definition wide_resnet32 := cifar_resnet 32 32.
Definition wide_resnet44 := cifar_resnet 44 32.
Definition wide_resnet56 := cifar_resnet 56 32.
Definition wide_resnet110 := cifar_resnet 110 32.
Definition wide_resnet1202 := cifar_resnet 1202 32.

(** *** Reading a constructed network *)

Definition in_channels_of (l : layer) : Z :=
  match l with Conv2d i _ _ _ _ _ => i | _ => 0%Z end.

Definition out_channels_of (l : layer) : Z :=
  match l with Conv2d _ o _ _ _ _ => o | _ => 0%Z end.

Definition stride_of (l : layer) : Z :=
  match l with Conv2d _ _ _ s _ _ => s | _ => 0%Z end.

Definition in_features_of (l : layer) : Z :=
  match l with
  | Linear i _ | torch_Linear i _ => i
  | _ => 0%Z
  end.

(** Channels a block takes and gives, and the stride of its main path. *)
Definition block_in (b : block) : Z := in_channels_of (conv1 b).
Definition block_out (b : block) : Z := out_channels_of (conv2 b).
Definition block_stride (b : block) : Z := stride_of (conv1 b).

(** Each block takes the channels the one before it gives, the first one
    taking [c]. *)
Fixpoint chained (c : Z) (bs : list block) : Prop :=
  match bs with
  | [] => True
  | b :: bs' => block_in b = c /\ chained (block_out b) bs'
  end.

(** The channels that leave the last block ([c] when there is none). *)
Definition channels_after (c : Z) (bs : list block) : Z :=
  fold_left (fun _ b => block_out b) bs c.

(** The shortcut agrees with the main path: an identity beside a stride-1
    path that keeps the channels, or a stride-2 projection beside a stride-2
    path. *)
Definition shortcut_agrees (b : block) : Prop :=
  match shortcut b with
  | Identity2d n =>
      block_stride b = 1%Z /\ block_in b = block_out b /\ n = block_in b
  | Sequential [Conv2d i o 1 2 None false; BatchNorm2d n] =>
      block_stride b = 2%Z /\ i = block_in b /\ o = block_out b /\
      n = block_out b
  | _ => False
  end.

Definition is_identity_shortcut (b : block) : bool :=
  match shortcut b with Identity2d _ => true | _ => false end.

(** The layer count of the naming scheme: the first convolution, two
    convolutions per block, the linear layer. *)
Definition depth (net : resnet) : Z :=
  (2 + 2 * Z.of_nat (List.length (blocks net)))%Z.

(** The blocks of one segment entered with [c] channels, given the
    [downsample] flag of each. *)
Fixpoint blocks_from (c filters : Z) (flags : list bool) : list block :=
  match flags with
  | [] => []
  | d :: rest => Block c filters d :: blocks_from filters filters rest
  end.

Definition downsample_flags (segment_index : nat) (block_indices : list nat)
  : list bool :=
  map (fun block_index =>
         (0 <? segment_index)%nat && (block_index =? 0)%nat) block_indices.

(** The channels with which the loop leaves a segment entered with [c]. *)
Definition channels_left (c filters : Z) (block_indices : list nat) : Z :=
  match block_indices with
  | [] => c
  | _ :: _ => filters
  end.

(** The blocks of a list of indexed segments entered with [c] channels. *)
Fixpoint plan_blocks (c : Z) (segments : list (nat * (Z * Z))) : list block :=
  match segments with
  | [] => []
  | (segment_index, (filters, num_blocks)) :: rest =>
      blocks_from c filters (downsample_flags segment_index (range num_blocks))
      ++ plan_blocks (channels_left c filters (range num_blocks)) rest
  end.

End lottery_resnet_model.

(** ** [Models/lottery_resnet.py]: [ResNet2] over [BasicBlock2] *)
Module resnet2_model.

(** What the constructors raise. *)
Inductive error : Type :=
| ValueError
| NotImplementedError
| IndexError.

Definition result (A : Type) : Type := (error + A)%type.

Definition bind {A B} (r : result A) (k : A -> result B) : result B :=
  match r with
  | inl e => inl e
  | inr a => k a
  end.

Notation "x <- r ;; k" := (bind r (fun x => k))
  (at level 61, r at next level, right associativity).

(** The classes the file passes as [norm_layer]. *)
Inductive norm_class : Type :=
| torch_BatchNorm2d
| layers_BatchNorm2d.

Local Unset Elimination Schemes.

(** A layer as it is constructed: the class and the arguments of the call,
    an argument the call leaves out being [None].  [Conv2d] and [Linear] are
    the classes of [layers_class]. *)
Inductive layer : Type :=
| Conv2d (in_channels out_channels kernel_size : Z)
         (stride padding : option Z) (bias : option bool)
| Norm (cls : norm_class) (num_features : Z)
| ReLU
| MaxPool2d (kernel_size stride padding : Z)
| ConstantPad2d (padding : Z)
| AdaptiveAvgPool2d
| Linear (in_features out_features : Z)
| Sequential (children : list layer)
| NamedSequential (children : list (string * layer)).

Local Set Elimination Schemes.

(** [BasicBlock2.expansion] *)
Definition expansion : Z := 1.

(** The attributes [BasicBlock2.__init__] assigns. *)
Record basic_block : Type := {
  conv1 : layer;
  bn1 : layer;
  relu : layer;
  conv2 : layer;
  bn2 : layer;
  downsample : option layer;
  stride : Z
}.

(** [BasicBlock2(inplanes, planes, stride, downsample, groups, base_width,
    dilation, norm_layer, last_activation)]; [last_activation] is not
    used. *)
Definition BasicBlock2 (inplanes planes stride : Z) (downsample : option layer)
           (groups base_width dilation : Z) (norm_layer : option norm_class)
           (last_activation : string) : result basic_block :=
  let norm_layer :=
    match norm_layer with
    | None => layers_BatchNorm2d
    | Some c => c
    end in
  if negb (groups =? 1)%Z || negb (base_width =? 64)%Z then inl ValueError
  else if (1 <? dilation)%Z then inl NotImplementedError
  else
    inr {| conv1 := Conv2d inplanes planes 3 (Some stride) (Some 1%Z) None;
           bn1 := Norm norm_layer planes;
           relu := ReLU;
           conv2 := Conv2d planes planes 3 None (Some 1%Z) None;
           bn2 := Norm norm_layer planes;
           downsample := downsample;
           stride := stride |}.

(** The attributes of a [ResNet2] that [_make_layer] reads and writes. *)
Record self_state : Type := {
  _norm_layer : norm_class;
  inplanes : Z;
  dilation : Z;
  groups : Z;
  base_width : Z
}.

Definition set_dilation (self : self_state) (d : Z) : self_state :=
  {| _norm_layer := _norm_layer self; inplanes := inplanes self;
     dilation := d; groups := groups self; base_width := base_width self |}.

Definition set_inplanes (self : self_state) (n : Z) : self_state :=
  {| _norm_layer := _norm_layer self; inplanes := n;
     dilation := dilation self; groups := groups self;
     base_width := base_width self |}.

(** [range(1, blocks)] *)
Definition range_from_1 (blocks : Z) : list nat :=
  seq 1 (Z.to_nat (blocks - 1)).

(** The loop of [_make_layer] over the blocks after the first. *)
Fixpoint later_blocks (self : self_state) (planes blocks : Z)
         (last_activation : string) (indices : list nat)
         (layers : list basic_block) : result (list basic_block) :=
  match indices with
  | [] => inr layers
  | i :: rest =>
      b <- BasicBlock2 (inplanes self) planes 1 None
             (groups self) (base_width self) (dilation self)
             (Some (_norm_layer self))
             (if (Z.of_nat i =? blocks - 1)%Z then last_activation else "relu") ;;
      later_blocks self planes blocks last_activation rest (layers ++ [b])
  end.

(** [self._make_layer(block, planes, blocks, stride, dilate,
    last_activation)] with [block = BasicBlock2]: the blocks of the
    [nn.Sequential] it returns, and the object after the call. *)
Definition _make_layer (self : self_state) (planes blocks stride : Z)
           (dilate : bool) (last_activation : string)
  : result (list basic_block * self_state) :=
  let norm_layer := _norm_layer self in
  let downsample := None in
  let previous_dilation := dilation self in
  let self := if dilate then set_dilation self (dilation self * stride)
              else self in
  let stride := if dilate then 1%Z else stride in
  let downsample :=
    if negb (stride =? 1)%Z || negb (inplanes self =? planes * expansion)%Z
    then Some (Sequential
                 [Conv2d (inplanes self) (planes * expansion) 1
                         (Some stride) None None;
                  Norm norm_layer (planes * expansion)])
    else downsample in
  first <- BasicBlock2 (inplanes self) planes stride downsample
             (groups self) (base_width self) previous_dilation
             (Some norm_layer)
             (if (blocks =? 1)%Z then last_activation else "relu") ;;
  let self := set_inplanes self (planes * expansion) in
  layers <- later_blocks self planes blocks last_activation
              (range_from_1 blocks) [first] ;;
  inr (layers, self).

(** The attributes [ResNet2.__init__] assigns that hold layers. *)
Record resnet2 : Type := {
  padding : layer;
  stem : layer;
  layer1 : list basic_block;
  layer2 : list basic_block;
  layer3 : list basic_block;
  layer4 : list basic_block;
  avgpool : layer;
  fc : layer;
  final_inplanes : Z
}.

(** [layers[i]] *)
Definition index (layers : list Z) (i : nat) : result Z :=
  match nth_error layers i with
  | Some n => inr n
  | None => inl IndexError
  end.

(** [ResNet2(BasicBlock2, layers, num_channels, groups=..., widen=...,
    width_per_group=..., replace_stride_with_dilation=..., norm_layer=...,
    last_activation=..., num_classes=..., img_dim=...)], up to the [print]
    and the weight initialisation, which build no layer.  [final_inplanes] is
    [self.inplanes] when the constructor returns.  A layer is recorded with
    the arguments of its constructor; the sizes are those torch accepts,
    which are not negative (on a negative size the stem's
    [nn.BatchNorm2d(width_per_group * widen)] raises [RuntimeError] before
    [layers[0]] is read). *)
Definition ResNet2 (layers : list Z) (num_channels : Z)
           (groups widen width_per_group : Z)
           (replace_stride_with_dilation : option (list bool))
           (norm_layer : option norm_class) (last_activation : string)
           (num_classes img_dim : Z) : result resnet2 :=
  let norm_layer :=
    match norm_layer with
    | None => torch_BatchNorm2d
    | Some c => c
    end in
  let padding := ConstantPad2d 1 in
  let replace_stride_with_dilation :=
    match replace_stride_with_dilation with
    | None => [false; false; false]
    | Some l => l
    end in
  if negb (List.length replace_stride_with_dilation =? 3)%nat
  then inl ValueError
  else
    let self := {| _norm_layer := norm_layer;
                   inplanes := width_per_group * widen;
                   dilation := 1;
                   groups := groups;
                   base_width := width_per_group |} in
    let num_out_filters := (width_per_group * widen)%Z in
    let stem :=
      if (img_dim <=? 48)%Z
      then NamedSequential
             [("conv0", Conv2d num_channels num_out_filters 3
                               (Some 1%Z) (Some 1%Z) (Some false));
              ("BN1", Norm norm_layer num_out_filters);
              ("ReLU1", ReLU)]
      else NamedSequential
             [("conv0", Conv2d num_channels num_out_filters 7
                               (Some 2%Z) (Some 2%Z) (Some false));
              ("BN1", Norm norm_layer num_out_filters);
              ("ReLU1", ReLU);
              ("MaxPool1", MaxPool2d 3 2 1)] in
    n0 <- index layers 0 ;;
    r1 <- _make_layer self num_out_filters n0 1 false "relu" ;;
    let '(layer1, self) := r1 in
    let num_out_filters := (num_out_filters * 2)%Z in
    n1 <- index layers 1 ;;
    r2 <- _make_layer self num_out_filters n1 2
            (nth 0 replace_stride_with_dilation false) "relu" ;;
    let '(layer2, self) := r2 in
    let num_out_filters := (num_out_filters * 2)%Z in
    n2 <- index layers 2 ;;
    r3 <- _make_layer self num_out_filters n2 2
            (nth 1 replace_stride_with_dilation false) "relu" ;;
    let '(layer3, self) := r3 in
    let num_out_filters := (num_out_filters * 2)%Z in
    n3 <- index layers 3 ;;
    r4 <- _make_layer self num_out_filters n3 2
            (nth 2 replace_stride_with_dilation false) last_activation ;;
    let '(layer4, self) := r4 in
    inr {| padding := padding; stem := stem;
           layer1 := layer1; layer2 := layer2;
           layer3 := layer3; layer4 := layer4;
           avgpool := AdaptiveAvgPool2d;
           fc := Linear (512 * expansion) num_classes;
           final_inplanes := inplanes self |}.

(** [resnet34(input_shape, num_classes, dense_classifier, pretrained)];
    only [num_classes] is used. *)
Definition resnet34 (num_classes : Z) : result resnet2 :=
  ResNet2 [3; 4; 6; 3]%Z 3 1 1 64 None None "relu" num_classes 32.

(** *** Reading a constructed network *)

(** The first block of a layer made for [planes] filters out of [inplanes]
    channels, and the blocks after it. *)
Definition first_block (norm : norm_class) (inplanes planes stride : Z)
  : basic_block :=
  {| conv1 := Conv2d inplanes planes 3 (Some stride) (Some 1%Z) None;
     bn1 := Norm norm planes;
     relu := ReLU;
     conv2 := Conv2d planes planes 3 None (Some 1%Z) None;
     bn2 := Norm norm planes;
     downsample :=
       if negb (stride =? 1)%Z || negb (inplanes =? planes)%Z
       then Some (Sequential [Conv2d inplanes planes 1 (Some stride) None None;
                              Norm norm planes])
       else None;
     stride := stride |}.

Definition later_block (norm : norm_class) (planes : Z) : basic_block :=
  {| conv1 := Conv2d planes planes 3 (Some 1%Z) (Some 1%Z) None;
     bn1 := Norm norm planes;
     relu := ReLU;
     conv2 := Conv2d planes planes 3 None (Some 1%Z) None;
     bn2 := Norm norm planes;
     downsample := None;
     stride := 1 |}.

Definition made_layer (norm : norm_class) (inplanes planes blocks stride : Z)
  : list basic_block :=
  first_block norm inplanes planes stride ::
  repeat (later_block norm planes) (Z.to_nat (blocks - 1)).

Definition in_features_of (l : layer) : Z :=
  match l with Linear i _ => i | _ => 0%Z end.

End resnet2_model.

(** * Properties *)

(** ** Generators *)

Lemma seq_gen_skip_l {A} (g : gen A) : seq_gen skip g = g.
Proof. destruct g; reflexivity. Qed.

Lemma for_quiet {A B} (xs : list A) (body : A -> gen B) :
  (forall x, In x xs -> snd (body x) = None) ->
  for_ xs body = (flat_map (fun x => fst (body x)) xs, None).
Proof.
  induction xs as [|x xs IH]; intros Hq; simpl.
  - reflexivity.
  - unfold seq_gen. rewrite (Hq x (or_introl eq_refl)).
    rewrite IH by (intros y Hy; apply Hq; right; exact Hy).
    reflexivity.
Qed.

Lemma for_ext {A B} (xs : list A) (body1 body2 : A -> gen B) :
  (forall x, body1 x = body2 x) -> for_ xs body1 = for_ xs body2.
Proof.
  intros H. induction xs as [|x xs IH]; simpl; [reflexivity|].
  rewrite H, IH. reflexivity.
Qed.

Lemma for_filter {A} (f : A -> bool) (xs : list A) :
  for_ xs (fun x => if f x then yield_ x else skip) = (filter f xs, None).
Proof.
  induction xs as [|x xs IH]; simpl; [reflexivity|].
  rewrite IH. destruct (f x); reflexivity.
Qed.

Lemma for_yield {A} (xs : list A) :
  for_ xs (fun x => yield_ x) = (xs, None).
Proof.
  induction xs as [|x xs IH]; simpl; [reflexivity|].
  rewrite IH. reflexivity.
Qed.

(** Whatever a loop yields, one of its iterations yields. *)
Lemma for_In {A B} (xs : list A) (body : A -> gen B) (y : B) :
  In y (fst (for_ xs body)) -> exists x, In x xs /\ In y (fst (body x)).
Proof.
  induction xs as [|x xs IH]; simpl; intros H; [contradiction|].
  unfold seq_gen in H. destruct (snd (body x)) as [e|].
  - exists x. split; [left; reflexivity | exact H].
  - simpl in H. apply in_app_or in H. destruct H as [H|H].
    + exists x. split; [left; reflexivity | exact H].
    + destruct (IH H) as [x' [Hx' Hy]].
      exists x'. split; [right; exact Hx' | exact Hy].
Qed.

(** A lazy filter whose predicate raises on the first element ends the
    loop before the body has run. *)
Lemma for_filtered_stops {A B} (pred : A -> exn + bool) (x : A)
      (xs : list A) (body : A -> gen B) (e : exn) :
  pred x = inl e -> for_filtered pred (x :: xs) body = ([], Some e).
Proof. intros H. unfold for_filtered. simpl. rewrite H. reflexivity. Qed.

(** With a predicate that never raises the lazy filter is a filter. *)
Lemma for_filtered_total {A B} (pred : A -> exn + bool) (f : A -> bool)
      (xs : list A) (body : A -> gen B) :
  (forall x, pred x = inr (f x)) ->
  for_filtered pred xs body = for_ (filter f xs) body.
Proof.
  intros H. unfold for_filtered.
  induction xs as [|x xs IH]; simpl; [reflexivity|].
  rewrite H. destruct (f x); simpl.
  - rewrite IH. reflexivity.
  - rewrite seq_gen_skip_l. exact IH.
Qed.

(** ** Lists *)

Lemma map_snd_flat_map {A B C} (f : A -> list (B * C)) (l : list A) :
  map snd (flat_map f l) = flat_map (fun x => map snd (f x)) l.
Proof.
  induction l as [|x l IH]; simpl; [reflexivity|].
  rewrite map_app, IH. reflexivity.
Qed.

Lemma flat_map_ext_Forall {A B} (f g : A -> list B) (l : list A) :
  Forall (fun x => f x = g x) l -> flat_map f l = flat_map g l.
Proof.
  induction 1 as [|x l Hx _ IH]; simpl; [reflexivity|].
  rewrite Hx, IH. reflexivity.
Qed.

Lemma filter_none {A} (f : A -> bool) (l : list A) :
  (forall x, In x l -> f x = false) -> filter f l = [].
Proof.
  induction l as [|x l IH]; simpl; intros H; [reflexivity|].
  rewrite (H x (or_introl eq_refl)). apply IH.
  intros y Hy. apply H. right. exact Hy.
Qed.

Lemma existsb_eqb_In (v : tensor) (l : list tensor) :
  existsb (Nat.eqb v) l = true <-> In v l.
Proof.
  rewrite existsb_exists. split.
  - intros [x [Hx He]]. apply Nat.eqb_eq in He. subst. exact Hx.
  - intros H. exists v. split; [exact H | apply Nat.eqb_refl].
Qed.

Lemma somes_app (a b : list (string * option tensor)) :
  somes (a ++ b) = somes a ++ somes b.
Proof.
  induction a as [|[n [v|]] a IH]; simpl; [reflexivity| |exact IH].
  rewrite IH. reflexivity.
Qed.

Lemma somes_In (items : list (string * option tensor)) n v :
  In (n, v) (somes items) <-> In (n, Some v) items.
Proof.
  induction items as [|[k [w|]] items IH]; simpl.
  - tauto.
  - rewrite IH. split; (intros [H|H]; [left; congruence | right; exact H]).
  - rewrite IH. split; [tauto|]. intros [H|H]; [discriminate | exact H].
Qed.

(** ** The loop of [_named_members] *)

Lemma loop_In memo items n v :
  In (n, v) (nn._named_members_loop memo items) ->
  In (n, v) (somes items) /\ ~ In v memo.
Proof.
  revert memo. induction items as [|[k [w|]] items IH]; simpl; intros memo H.
  - contradiction.
  - destruct (existsb (Nat.eqb w) memo) eqn:E.
    + destruct (IH _ H) as [H1 H2]. split; [right; exact H1 | exact H2].
    + destruct H as [H|H].
      * inversion H; subst. split; [left; reflexivity|].
        intros Hin. apply existsb_eqb_In in Hin. congruence.
      * destruct (IH _ H) as [H1 H2]. split; [right; exact H1|].
        intros Hin. apply H2. right. exact Hin.
  - apply IH in H. exact H.
Qed.

Lemma loop_NoDup memo items :
  NoDup (map snd (nn._named_members_loop memo items)).
Proof.
  revert memo. induction items as [|[k [w|]] items IH]; simpl; intros memo.
  - constructor.
  - destruct (existsb (Nat.eqb w) memo); [apply IH|].
    simpl. constructor; [|apply IH].
    intros Hin. apply in_map_iff in Hin. destruct Hin as [[n v] [Hv Hin]].
    simpl in Hv. subst v. apply loop_In in Hin. destruct Hin as [_ Hn].
    apply Hn. left. reflexivity.
  - apply IH.
Qed.

(** With every tensor registered once and none of them remembered, the
    loop yields every entry that holds a tensor. *)
Lemma loop_unique memo items :
  NoDup (map snd (somes items)) ->
  (forall v, In v (map snd (somes items)) -> ~ In v memo) ->
  nn._named_members_loop memo items = somes items.
Proof.
  revert memo. induction items as [|[k [w|]] items IH]; simpl; intros memo Hnd Hm.
  - reflexivity.
  - inversion Hnd as [|? ? Hw Hnd']; subst.
    destruct (existsb (Nat.eqb w) memo) eqn:E.
    + apply existsb_eqb_In in E. exfalso. apply (Hm w); [left; reflexivity | exact E].
    + f_equal. apply IH; [exact Hnd'|].
      intros v Hv [Hin|Hin].
      * subst v. contradiction.
      * apply (Hm v); [right; exact Hv | exact Hin].
  - apply IH; assumption.
Qed.

(** ** Classification predicates *)

(** What [prunable] computes once [layers_class] resolves: the decision
    table over the class of the module and the two flags, and its growth
    with the flags. *)

Lemma isinstance_pair (m : nn.module) (a b : nn.kind) :
  nn.isinstance m [a; b] = true <-> nn.kind_of m = a \/ nn.kind_of m = b.
Proof.
  unfold nn.isinstance. simpl.
  destruct (nn.kind_of m), a, b; simpl; split; intros H;
    try reflexivity; try discriminate; try (left; reflexivity);
    try (right; reflexivity);
    destruct H as [H|H]; discriminate H.
Qed.

Lemma prunable_cases (m : nn.module) (batchnorm residual : bool) :
  bound.prunable m batchnorm residual = true <->
  (nn.kind_of m = nn.Linear \/ nn.kind_of m = nn.Conv2d) \/
  (batchnorm = true /\
   (nn.kind_of m = nn.BatchNorm1d \/ nn.kind_of m = nn.BatchNorm2d)) \/
  (residual = true /\
   (nn.kind_of m = nn.Identity1d \/ nn.kind_of m = nn.Identity2d)).
Proof.
  unfold bound.prunable.
  destruct batchnorm, residual;
    repeat rewrite orb_true_iff; repeat rewrite isinstance_pair;
    intuition discriminate.
Qed.

Lemma prunable_mono (m : nn.module) (b1 b2 r1 r2 : bool) :
  (b1 = true -> b2 = true) -> (r1 = true -> r2 = true) ->
  bound.prunable m b1 r1 = true -> bound.prunable m b2 r2 = true.
Proof.
  intros Hb Hr H.
  apply prunable_cases in H.
  apply prunable_cases.
  destruct H as [H|[[H1 H2]|[H1 H2]]].
  - left. exact H.
  - right. left. split; [apply Hb; exact H1 | exact H2].
  - right. right. split; [apply Hr; exact H1 | exact H2].
Qed.

(** ** The ResNet plan *)

(** C10. [_plan(D, W)] raises [ValueError] exactly when [(D - 2) mod 3] is
    nonzero; otherwise it returns the three segments
    [(W, (D-2)//6), (2W, (D-2)//6), (4W, (D-2)//6)].  A depth with [D - 2]
    divisible by 3 and not by 6, such as 23, is accepted with the floor of
    [(D-2)/6] blocks per segment. *)
Theorem plan_spec (D W : Z) :
  (lottery_resnet._plan D W = inl ValueError <-> ((D - 2) mod 3 <> 0)%Z) /\
  (((D - 2) mod 3 = 0)%Z ->
   lottery_resnet._plan D W =
   inr [(W, (D - 2) / 6); (2 * W, (D - 2) / 6); (4 * W, (D - 2) / 6)]%Z) /\
  ((23 - 2) mod 6 <> 0)%Z /\
  lottery_resnet._plan 23 W = inr [(W, 3); (2 * W, 3); (4 * W, 3)]%Z.
Proof.
  unfold lottery_resnet._plan.
  repeat split.
  - destruct ((D - 2) mod 3 =? 0)%Z eqn:E; simpl; intros H.
    + discriminate H.
    + apply Z.eqb_neq. exact E.
  - intros H. apply Z.eqb_neq in H. rewrite H. reflexivity.
  - intros H. apply Z.eqb_eq in H. rewrite H. reflexivity.
  - discriminate.
Qed.

Lemma plan_spec_witness :
  lottery_resnet._plan 20 16 = inr [(16, 3); (32, 3); (64, 3)]%Z /\
  lottery_resnet._plan 22 16 = inl ValueError.
Proof.
  split.
  - apply (proj1 (proj2 (plan_spec 20 16))). reflexivity.
  - apply (proj1 (plan_spec 22 16)). discriminate.
Defined.

(** ** Walking the tree *)

(** The modules [named_modules] visits do not depend on the prefix: they
    are the depth-first listing of the tree. *)
Lemma named_modules_dfs (m : nn.module) :
  forall prefix, map snd (nn.named_modules prefix m) = dfs m.
Proof.
  induction m as [k ps bs b cs IH] using nn.module_ind. intros prefix.
  simpl. f_equal. rewrite map_snd_flat_map.
  apply flat_map_ext_Forall.
  induction IH as [|nc cs Hnc _ IHcs]; constructor.
  - apply Hnc.
  - exact IHcs.
Qed.

Lemma modules_dfs (m : nn.module) : nn.modules m = dfs m.
Proof. apply named_modules_dfs. Qed.

Lemma modules_unfold (m : nn.module) :
  nn.modules m = m :: flat_map (fun nc => nn.modules (snd nc)) (nn._modules m).
Proof.
  rewrite modules_dfs. destruct m as [k ps bs b cs]. simpl. f_equal.
  apply flat_map_ext_Forall. apply Forall_forall. intros nc _.
  symmetry. apply modules_dfs.
Qed.

(** The buffers met along [named_modules] are the depth-first listing of
    the buffers of the subtree. *)
Lemma named_modules_buffers (m : nn.module) :
  forall prefix,
    somes (flat_map (nn.qualified nn._buffers) (nn.named_modules prefix m)) =
    subtree_buffers prefix m.
Proof.
  induction m as [k ps bs b cs IH] using nn.module_ind. intros prefix.
  simpl. rewrite somes_app. f_equal.
  induction IH as [|nc cs Hnc _ IHcs]; simpl; [reflexivity|].
  rewrite flat_map_app, somes_app, Hnc, IHcs. reflexivity.
Qed.

Lemma qualified_root get (m : nn.module) : nn.qualified get ("", m) = get m.
Proof.
  unfold nn.qualified. simpl. rewrite <- (map_id (get m)) at 2.
  apply map_ext. intros [n v]. reflexivity.
Qed.

(** Every tensor registered and not remembered is yielded by the loop. *)
Lemma loop_complete memo items v :
  In v (map snd (somes items)) -> ~ In v memo ->
  In v (map snd (nn._named_members_loop memo items)).
Proof.
  revert memo. induction items as [|[k [w|]] items IH]; simpl; intros memo Hin Hm.
  - contradiction.
  - destruct (existsb (Nat.eqb w) memo) eqn:E.
    + apply existsb_eqb_In in E. destruct Hin as [Hin|Hin].
      * subst w. contradiction.
      * apply IH; assumption.
    + destruct (Nat.eq_dec w v) as [Heq|Hne].
      * left. exact Heq.
      * right. destruct Hin as [Hin|Hin]; [contradiction|].
        apply IH; [exact Hin|]. intros [H|H]; [contradiction | exact (Hm H)].
  - apply IH; assumption.
Qed.

Lemma own_parameters_eq (m : nn.module) :
  nn.parameters m false =
  map snd (nn._named_members_loop [] (nn._parameters m)).
Proof.
  unfold nn.parameters, nn._named_members. simpl.
  rewrite app_nil_r, qualified_root. reflexivity.
Qed.

(** Own parameters, [module.parameters(recurse=False)]: the tensors
    registered in [_parameters], each once. *)
Lemma own_parameters_In (m : nn.module) (t : tensor) :
  In t (nn.parameters m false) <-> exists k, In (k, Some t) (nn._parameters m).
Proof.
  rewrite own_parameters_eq. split.
  - intros H. apply in_map_iff in H. destruct H as [[n v] [Hv H]].
    simpl in Hv. subst v. apply loop_In in H. destruct H as [H _].
    exists n. apply somes_In. exact H.
  - intros [k H]. apply loop_complete; [|intros []].
    apply in_map_iff. exists (k, t). split; [reflexivity|].
    apply somes_In. exact H.
Qed.

Lemma own_parameters_NoDup (m : nn.module) : NoDup (nn.parameters m false).
Proof. rewrite own_parameters_eq. apply loop_NoDup. Qed.

(** ** The name [layers_class] *)

Lemma isinstance_unbound (g : generator.globals) (m : nn.module)
      (classes : list nn.kind) :
  g "layers_class" = false ->
  generator.isinstance_layers_class g m classes = inl NameError.
Proof.
  intros H. unfold generator.isinstance_layers_class, generator.load_global.
  rewrite H. reflexivity.
Qed.

Lemma isinstance_bound (g : generator.globals) (m : nn.module)
      (classes : list nn.kind) :
  g "layers_class" = true ->
  generator.isinstance_layers_class g m classes = inr (nn.isinstance m classes).
Proof.
  intros H. unfold generator.isinstance_layers_class, generator.load_global.
  rewrite H. reflexivity.
Qed.

Lemma trainable_in_unbound (g : generator.globals) (m : nn.module) :
  g "layers_class" = false -> generator.trainable_in g m = inl NameError.
Proof.
  intros H. unfold generator.trainable_in.
  rewrite isinstance_unbound by exact H. reflexivity.
Qed.

Lemma prunable_in_unbound (g : generator.globals) (m : nn.module)
      (batchnorm residual : bool) :
  g "layers_class" = false ->
  generator.prunable_in g m batchnorm residual = inl NameError.
Proof.
  intros H. unfold generator.prunable_in.
  rewrite isinstance_unbound by exact H. reflexivity.
Qed.

Lemma trainable_in_bound (g : generator.globals) (m : nn.module) :
  g "layers_class" = true ->
  generator.trainable_in g m = inr (bound.trainable m).
Proof.
  intros H. unfold generator.trainable_in.
  rewrite isinstance_bound by exact H. reflexivity.
Qed.

Lemma prunable_in_bound (g : generator.globals) (m : nn.module)
      (batchnorm residual : bool) :
  g "layers_class" = true ->
  generator.prunable_in g m batchnorm residual =
  inr (bound.prunable m batchnorm residual).
Proof.
  intros H. unfold generator.prunable_in, bound.prunable.
  rewrite !isinstance_bound by exact H.
  destruct batchnorm, residual; reflexivity.
Qed.

(** The first module the lazy filter tests is the model itself, so with
    [layers_class] unbound the traversals end before yielding anything. *)
Lemma parameters_in_unbound (g : generator.globals) (model : nn.module) :
  g "layers_class" = false ->
  generator.parameters_in g model = ([], Some NameError).
Proof.
  intros H. unfold generator.parameters_in. rewrite modules_unfold.
  apply for_filtered_stops. apply trainable_in_unbound. exact H.
Qed.

Lemma masked_parameters_in_unbound (g : generator.globals) (model : nn.module)
      (bias batchnorm residual : bool) :
  g "layers_class" = false ->
  generator.masked_parameters_in g model bias batchnorm residual =
  ([], Some NameError).
Proof.
  intros H. unfold generator.masked_parameters_in. rewrite modules_unfold.
  apply for_filtered_stops. apply prunable_in_unbound. exact H.
Qed.

Lemma parameters_in_bound (g : generator.globals) (model : nn.module) :
  g "layers_class" = true ->
  generator.parameters_in g model = (bound.parameters model, None).
Proof.
  intros H. unfold generator.parameters_in, bound.parameters.
  rewrite (for_filtered_total _ bound.trainable)
    by (intros m; apply trainable_in_bound; exact H).
  rewrite for_quiet by (intros m _; rewrite for_yield; reflexivity).
  f_equal. apply flat_map_ext_Forall. apply Forall_forall.
  intros m _. rewrite for_yield. reflexivity.
Qed.

Lemma masked_parameters_in_bound (g : generator.globals) (model : nn.module)
      (bias batchnorm residual : bool) :
  g "layers_class" = true ->
  generator.masked_parameters_in g model bias batchnorm residual =
  bound.masked_parameters model bias batchnorm residual.
Proof.
  intros H. unfold generator.masked_parameters_in, bound.masked_parameters.
  apply (for_filtered_total _ (fun p => bound.prunable p batchnorm residual)).
  intros m. apply prunable_in_bound. exact H.
Qed.

(** ** Trainable parameters, with [layers_class] bound *)

Lemma parameters_unfold (model : nn.module) :
  bound.parameters model =
  (if bound.trainable model then nn.parameters model false else []) ++
  flat_map (fun nc => bound.parameters (snd nc)) (nn._modules model).
Proof.
  unfold bound.parameters at 1. rewrite modules_unfold. simpl.
  destruct (bound.trainable model); simpl; [f_equal|];
    induction (nn._modules model) as [|nc cs IH]; simpl; try reflexivity;
    rewrite filter_app, flat_map_app, IH; reflexivity.
Qed.

(** Once [layers_class] resolves, [parameters(model)] yields, in
    depth-first declaration order, the own parameters of every module for
    which [trainable] holds, and [trainable] holds exactly for the modules
    that are neither Identity1d nor Identity2d.  An Identity layer yields
    none of its own parameters, yet its subtree is still walked. *)
Lemma bound_parameters_spec (model : nn.module) :
  (forall m, bound.trainable m = true <->
             nn.kind_of m <> nn.Identity1d /\ nn.kind_of m <> nn.Identity2d) /\
  bound.parameters model =
    flat_map (fun m => nn.parameters m false)
             (filter bound.trainable (dfs model)) /\
  bound.parameters model =
    (if bound.trainable model then nn.parameters model false else []) ++
    flat_map (fun nc => bound.parameters (snd nc)) (nn._modules model) /\
  (forall t, In t (bound.parameters model) <->
             exists m k, In m (dfs model) /\ bound.trainable m = true /\
                         In (k, Some t) (nn._parameters m)) /\
  (nn.kind_of model = nn.Identity1d \/ nn.kind_of model = nn.Identity2d ->
   bound.parameters model =
   flat_map (fun nc => bound.parameters (snd nc)) (nn._modules model)) /\
  (forall t, (forall m k, In m (dfs model) -> In (k, Some t) (nn._parameters m) ->
                          bound.trainable m = false) ->
             ~ In t (bound.parameters model)).
Proof.
  assert (Hmem : forall t, In t (bound.parameters model) <->
             exists m k, In m (dfs model) /\ bound.trainable m = true /\
                         In (k, Some t) (nn._parameters m)).
  { intros t. unfold bound.parameters. rewrite modules_dfs, in_flat_map.
    split.
    + intros [m [Hm Ht]]. apply filter_In in Hm. destruct Hm as [Hm Htr].
      apply own_parameters_In in Ht. destruct Ht as [k Hk].
      exists m, k. auto.
    + intros [m [k [Hm [Htr Hk]]]]. exists m. split.
      * apply filter_In. auto.
      * apply own_parameters_In. exists k. exact Hk. }
  split; [|split; [|split; [|split; [|split]]]].
  - intros m. unfold bound.trainable. rewrite negb_true_iff.
    rewrite <- not_true_iff_false, isinstance_pair. tauto.
  - unfold bound.parameters. rewrite modules_dfs. reflexivity.
  - apply parameters_unfold.
  - exact Hmem.
  - intros Hk. rewrite parameters_unfold.
    assert (E : bound.trainable model = false).
    { unfold bound.trainable. rewrite negb_false_iff.
      apply isinstance_pair. exact Hk. }
    rewrite E. reflexivity.
  - intros t Hall Hin. apply Hmem in Hin.
    destruct Hin as [m [k [Hm [Htr Hk]]]].
    rewrite (Hall m k Hm Hk) in Htr. discriminate Htr.
Qed.

(** ** Mask discovery *)

Lemma named_buffers_eq (m : nn.module) :
  nn.named_buffers m =
  nn._named_members_loop []
    (flat_map (nn.qualified nn._buffers) (nn.named_modules "" m)).
Proof. reflexivity. Qed.

(** With every buffer tensor registered once, [named_buffers] is the
    depth-first listing of the buffers of the subtree. *)
Lemma named_buffers_unique (m : nn.module) :
  NoDup (map snd (subtree_buffers "" m)) ->
  nn.named_buffers m = subtree_buffers "" m.
Proof.
  intros Hnd. rewrite named_buffers_eq.
  rewrite <- named_modules_buffers in *.
  apply loop_unique; [exact Hnd | intros v _ H; exact H].
Qed.

(** Whatever the sharing, a discovered mask is a buffer of the subtree
    registered under a name that contains "mask". *)
Lemma masks_sound (m : nn.module) (t : tensor) :
  In t (generator.masks m) ->
  exists name, In (name, t) (subtree_buffers "" m) /\ str_in "mask" name = true.
Proof.
  unfold generator.masks. intros H.
  apply in_map_iff in H. destruct H as [[n v] [Hv H]]. simpl in Hv. subst v.
  apply filter_In in H. destruct H as [H Hn]. simpl in Hn.
  rewrite named_buffers_eq in H. apply loop_In in H. destruct H as [H _].
  rewrite named_modules_buffers in H. exists n. auto.
Qed.

(** C6. [masks(module)] yields the buffers registered anywhere in the
    subtree of [module] whose qualified name contains "mask", in
    depth-first declaration order; without such a buffer it yields the empty
    sequence; it is a total function (no error), and a second call walks the
    tree again and yields the same sequence.  Buffers are owned by one layer
    each, as in the data model. *)
Theorem masks_spec (module : nn.module)
        (Hown : NoDup (map snd (subtree_buffers "" module))) :
  generator.masks module =
    map snd (filter mask_named (subtree_buffers "" module)) /\
  (forall t, In t (generator.masks module) <->
             exists name, In (name, t) (subtree_buffers "" module) /\
                          str_in "mask" name = true) /\
  ((forall name t, In (name, t) (subtree_buffers "" module) ->
                   str_in "mask" name = false) ->
   generator.masks module = []) /\
  run [Call OpMasks; Call OpMasks] module =
    [(OpMasks, Tensors (generator.masks module));
     (OpMasks, Tensors (generator.masks module))].
Proof.
  assert (E : generator.masks module =
              map snd (filter mask_named (subtree_buffers "" module))).
  { unfold generator.masks. rewrite named_buffers_unique by exact Hown.
    reflexivity. }
  split; [exact E|]. split; [|split].
  - intros t. split; [apply masks_sound|].
    intros [name [Hin Hn]]. rewrite E. apply in_map_iff.
    exists (name, t). split; [reflexivity|]. apply filter_In. auto.
  - intros Hnone. rewrite E, filter_none; [reflexivity|].
    intros [n v] Hin. apply (Hnone n v Hin).
  - reflexivity.
Qed.

Lemma masks_spec_witness :
  NoDup (map snd (subtree_buffers "" toy_model)) /\
  generator.masks toy_model = [2] /\
  generator.masks toy_bn = [].
Proof.
  assert (H : NoDup (map snd (subtree_buffers "" toy_model))).
  { simpl. repeat constructor; simpl; intuition discriminate. }
  split; [exact H|]. split.
  - rewrite (proj1 (masks_spec toy_model H)). reflexivity.
  - reflexivity.
Defined.

(** ** The zip of one module *)

Lemma module_pairs_present (m : nn.module) (bias : bool) :
  nn.getattr_bias m <> AttrMissing ->
  generator.module_pairs m bias =
  (filter (fun mp => negb (is_bias_pair m mp) || bias) (matched m), None).
Proof.
  intros Hb. unfold generator.module_pairs. fold (matched m).
  rewrite <- for_filter. apply for_ext. intros [mask param].
  unfold is_bias_pair. simpl.
  destruct (nn.getattr_bias m); [contradiction | reflexivity | reflexivity].
Qed.

Lemma module_pairs_nil (m : nn.module) (bias : bool) :
  matched m = [] -> generator.module_pairs m bias = skip.
Proof.
  unfold generator.module_pairs, matched. intros E. rewrite E. reflexivity.
Qed.

Lemma module_pairs_missing (m : nn.module) (bias : bool) :
  nn.getattr_bias m = AttrMissing -> matched m <> [] ->
  generator.module_pairs m bias = raise AttributeError.
Proof.
  unfold generator.module_pairs, matched. intros E Hne.
  destruct (combine (generator.masks m) (nn.parameters m false))
    as [|[mask param] l]; [contradiction|].
  simpl. rewrite E. reflexivity.
Qed.

(** With [layers_class] bound and under the attribute contract no module
    raises, and the traversal yields the filtered zip of each retained
    module in turn. *)
Lemma masked_parameters_quiet (model : nn.module) (bias batchnorm residual : bool) :
  bias_contract model batchnorm residual ->
  bound.masked_parameters model bias batchnorm residual =
  (flat_map (fun m => filter (fun mp => negb (is_bias_pair m mp) || bias)
                             (matched m))
            (retained model batchnorm residual), None).
Proof.
  intros Hc. unfold bound.masked_parameters. fold (retained model batchnorm residual).
  assert (Hm : forall m, In m (retained model batchnorm residual) ->
                 generator.module_pairs m bias =
                 (filter (fun mp => negb (is_bias_pair m mp) || bias) (matched m), None)).
  { intros m Hin. destruct (matched m) as [|p l] eqn:E.
    - rewrite module_pairs_nil by exact E. reflexivity.
    - rewrite <- E. apply module_pairs_present. apply Hc; [exact Hin|].
      rewrite E. discriminate. }
  rewrite for_quiet.
  - f_equal. apply flat_map_ext_Forall. apply Forall_forall.
    intros m Hin. rewrite (Hm m Hin). reflexivity.
  - intros m Hin. rewrite (Hm m Hin). reflexivity.
Qed.

Lemma filter_true {A} (l : list A) : filter (fun _ => true) l = l.
Proof. induction l as [|x l IH]; simpl; [|rewrite IH]; reflexivity. Qed.

Lemma filter_orb_true {A} (f : A -> bool) (l : list A) :
  filter (fun x => f x || true) l = l.
Proof.
  rewrite <- (filter_true l) at 2. apply filter_ext.
  intros x. apply orb_true_r.
Qed.

Lemma filter_orb_false {A} (f : A -> bool) (l : list A) :
  filter (fun x => f x || false) l = filter f l.
Proof. apply filter_ext. intros x. apply orb_false_r. Qed.

Lemma matched_length (m : nn.module) :
  List.length (matched m) =
  Nat.min (List.length (generator.masks m)) (List.length (nn.parameters m false)).
Proof. apply length_combine. Qed.

Lemma combine_nth_error {A B} (l1 : list A) (l2 : list B) i a b :
  nth_error (combine l1 l2) i = Some (a, b) <->
  nth_error l1 i = Some a /\ nth_error l2 i = Some b.
Proof.
  revert l2 i. induction l1 as [|x l1 IH]; intros [|y l2] [|i]; simpl;
    try (split; [discriminate | intros [H1 H2]; discriminate]).
  - split; [intros H; inversion H; auto | intros [H1 H2]; congruence].
  - apply IH.
Qed.

Lemma for_filter_skip {A B} (f : A -> bool) (body : A -> gen B) (xs : list A) :
  (forall x, f x = false -> body x = skip) ->
  for_ xs body = for_ (filter f xs) body.
Proof.
  intros H. induction xs as [|x xs IH]; simpl; [reflexivity|].
  destruct (f x) eqn:E; simpl.
  - rewrite IH. reflexivity.
  - rewrite (H x E), seq_gen_skip_l. exact IH.
Qed.

(** For a module without children the discovered masks are its own. *)
Lemma masks_leaf (m : nn.module) :
  nn._modules m = [] -> generator.masks m = own_masks m.
Proof.
  intros Hleaf. unfold generator.masks, own_masks. rewrite named_buffers_eq.
  unfold nn._named_members.
  destruct m as [k ps bs b cs]. simpl in *. subst cs. reflexivity.
Qed.

Lemma own_masks_none (m : nn.module) :
  (forall k t, In (k, Some t) (nn._buffers m) -> str_in "mask" k = false) ->
  own_masks m = [].
Proof.
  intros Hnone. unfold own_masks, nn._named_members. simpl.
  rewrite app_nil_r, qualified_root, filter_none; [reflexivity|].
  intros [n v] Hin. apply loop_In in Hin. destruct Hin as [Hin _].
  apply somes_In in Hin. apply (Hnone n v Hin).
Qed.

(** Once [layers_class] resolves, a retained module for which no mask is
    discovered contributes no pair and raises nothing: dropping such modules
    from the walk leaves [masked_parameters] unchanged.  A module without
    children and without a buffer of its own named as a mask is such a
    module.  On the toy model (a masked Conv2d and a BatchNorm2d without a
    mask) the traversal yields the one pair of the convolution, and still
    that one pair with [batchnorm=True]. *)
Lemma bound_maskless_modules
        (model : nn.module) (bias batchnorm residual : bool) :
  bound.masked_parameters model bias batchnorm residual =
    for_ (filter has_masks (retained model batchnorm residual))
         (fun m => generator.module_pairs m bias) /\
  (forall m, has_masks m = false -> generator.module_pairs m bias = skip) /\
  (forall m, nn._modules m = [] ->
             (forall k t, In (k, Some t) (nn._buffers m) ->
                          str_in "mask" k = false) ->
             has_masks m = false) /\
  bound.masked_parameters toy_model false false false = ([(2, 1)], None) /\
  In toy_bn (retained toy_model true false) /\
  has_masks toy_bn = false /\
  bound.masked_parameters toy_model false true false = ([(2, 1)], None).
Proof.
  assert (Hskip : forall m, has_masks m = false ->
                            generator.module_pairs m bias = skip).
  { intros m Hm. apply module_pairs_nil. unfold matched.
    unfold has_masks in Hm.
    destruct (generator.masks m); [reflexivity | discriminate Hm]. }
  split; [|split; [exact Hskip|split; [|split; [|split; [|split]]]]].
  - unfold bound.masked_parameters.
    fold (retained model batchnorm residual).
    apply for_filter_skip. exact Hskip.
  - intros m Hleaf Hnone. unfold has_masks.
    rewrite (masks_leaf m Hleaf), (own_masks_none m Hnone). reflexivity.
  - reflexivity.
  - vm_compute. right. left. reflexivity.
  - reflexivity.
  - reflexivity.
Qed.

(** ** Counting pairs *)

Lemma flat_map_length_sum {A B} (f : A -> list B) (l : list A) :
  List.length (flat_map f l) = list_sum (map (fun x => List.length (f x)) l).
Proof.
  induction l as [|x l IH]; simpl; [reflexivity|].
  rewrite length_app, IH. reflexivity.
Qed.

Lemma filter_split_length {A} (f : A -> bool) (l : list A) :
  List.length l =
  List.length (filter (fun x => negb (f x)) l) + List.length (filter f l).
Proof.
  induction l as [|x l IH]; simpl; [reflexivity|].
  destruct (f x); simpl; lia.
Qed.

Lemma combine_snd_NoDup {A B} (l1 : list A) (l2 : list B) :
  NoDup l2 -> NoDup (map snd (combine l1 l2)).
Proof.
  revert l2. induction l1 as [|x l1 IH]; intros [|y l2] Hnd; simpl;
    try constructor.
  - inversion Hnd as [|? ? Hy _]; subst. intros Hin. apply Hy.
    apply in_map_iff in Hin. destruct Hin as [[a b] [Hb Hin]].
    simpl in Hb. subst b. apply in_combine_r in Hin. exact Hin.
  - apply IH. inversion Hnd; assumption.
Qed.

(** Among pairs with distinct parameters at most one is the bias pair. *)
Lemma bias_pair_count (a : attr) (l : list (tensor * tensor)) :
  NoDup (map snd l) ->
  List.length (filter (fun mp => is_ (snd mp) a) l) =
  if existsb (fun mp => is_ (snd mp) a) l then 1 else 0.
Proof.
  induction l as [|[mask param] l IH]; simpl; intros Hnd; [reflexivity|].
  inversion Hnd as [|? ? Hp Hnd']; subst.
  destruct (is_ param a) eqn:E; simpl.
  - rewrite filter_none; [reflexivity|].
    intros [mk q] Hin. simpl.
    destruct a as [| |t]; try discriminate E. simpl in *.
    apply Nat.eqb_eq in E. subst t.
    apply Nat.eqb_neq. intros Heq. subst q. apply Hp.
    apply in_map_iff. exists (mk, param). auto.
  - apply IH. exact Hnd'.
Qed.

Lemma module_bias_count (m : nn.module) :
  List.length (matched m) =
  List.length (filter (fun mp => negb (is_bias_pair m mp)) (matched m)) +
  (if owns_bias_with_mask m then 1 else 0).
Proof.
  rewrite (filter_split_length (is_bias_pair m) (matched m)). f_equal.
  unfold owns_bias_with_mask, is_bias_pair. apply bias_pair_count.
  apply combine_snd_NoDup. apply own_parameters_NoDup.
Qed.

Lemma retained_bias_count (ms : list nn.module) :
  List.length (flat_map matched ms) =
  List.length
    (flat_map (fun m => filter (fun mp => negb (is_bias_pair m mp)) (matched m))
              ms) +
  List.length (filter owns_bias_with_mask ms).
Proof.
  induction ms as [|m ms IH]; simpl; [reflexivity|].
  rewrite !length_app, IH, (module_bias_count m).
  destruct (owns_bias_with_mask m); simpl; lia.
Qed.

(** Once [layers_class] resolves, a mismatch between the number of masks
    and the number of own parameters of a retained module is not detected:
    the zip stops at the shorter sequence, so the module gives [min]
    positionally matched pairs before bias filtering, and the traversal
    raises nothing.  Each retained module whose zip is not empty exposes a
    [bias] attribute. *)
Lemma bound_zip_truncates
        (model : nn.module) (bias batchnorm residual : bool)
        (Hattr : bias_contract model batchnorm residual) :
  snd (bound.masked_parameters model bias batchnorm residual) = None /\
  fst (bound.masked_parameters model true batchnorm residual) =
    flat_map matched (retained model batchnorm residual) /\
  List.length (fst (bound.masked_parameters model true batchnorm residual)) =
    list_sum (map (fun m => Nat.min (List.length (generator.masks m))
                                    (List.length (nn.parameters m false)))
                  (retained model batchnorm residual)) /\
  (forall m, List.length (matched m) =
             Nat.min (List.length (generator.masks m))
                     (List.length (nn.parameters m false))) /\
  (forall m i mask param,
      nth_error (matched m) i = Some (mask, param) <->
      nth_error (generator.masks m) i = Some mask /\
      nth_error (nn.parameters m false) i = Some param).
Proof.
  assert (E : fst (bound.masked_parameters model true batchnorm residual) =
              flat_map matched (retained model batchnorm residual)).
  { rewrite masked_parameters_quiet by exact Hattr. simpl.
    apply flat_map_ext_Forall. apply Forall_forall. intros m _.
    apply filter_orb_true. }
  split; [|split; [exact E|split; [|split]]].
  - rewrite masked_parameters_quiet by exact Hattr. reflexivity.
  - rewrite E, flat_map_length_sum. f_equal. apply map_ext.
    intros m. apply matched_length.
  - apply matched_length.
  - intros m i mask param. apply combine_nth_error.
Qed.

(** ** The bias flag, with [layers_class] bound *)

(** Once [layers_class] resolves: with [bias=False] no yielded pair holds
    the bias tensor of the module it comes from; the pairs whose parameter
    is not that bias are yielded whatever the flag; and [bias=True] yields
    exactly one more pair for each retained module that owns a bias tensor
    matched with a mask.  Each retained module whose zip is not empty
    exposes a [bias] attribute. *)
Lemma bound_bias_flag (model : nn.module) (batchnorm residual : bool)
        (Hattr : bias_contract model batchnorm residual) :
  bound.masked_parameters model false batchnorm residual =
    (flat_map (fun m => filter (fun mp => negb (is_bias_pair m mp)) (matched m))
              (retained model batchnorm residual), None) /\
  bound.masked_parameters model true batchnorm residual =
    (flat_map matched (retained model batchnorm residual), None) /\
  (forall m mask param bias,
      In m (retained model batchnorm residual) ->
      In (mask, param) (matched m) ->
      nn.getattr_bias m <> AttrTensor param ->
      In (mask, param) (fst (generator.module_pairs m bias)) /\
      In (mask, param)
         (fst (bound.masked_parameters model bias batchnorm residual))) /\
  (forall m mask param,
      In m (retained model batchnorm residual) ->
      In (mask, param) (fst (generator.module_pairs m false)) ->
      nn.getattr_bias m <> AttrTensor param) /\
  List.length (fst (bound.masked_parameters model true batchnorm residual)) =
    List.length (fst (bound.masked_parameters model false batchnorm residual)) +
    List.length (filter owns_bias_with_mask (retained model batchnorm residual)).
Proof.
  assert (Hpres : forall m mask param,
             In m (retained model batchnorm residual) ->
             In (mask, param) (matched m) ->
             nn.getattr_bias m <> AttrMissing).
  { intros m mask param Hm Hin. apply Hattr; [exact Hm|].
    intros E. rewrite E in Hin. exact Hin. }
  assert (Ef : bound.masked_parameters model false batchnorm residual =
    (flat_map (fun m => filter (fun mp => negb (is_bias_pair m mp)) (matched m))
              (retained model batchnorm residual), None)).
  { rewrite masked_parameters_quiet by exact Hattr. f_equal.
    apply flat_map_ext_Forall. apply Forall_forall. intros m _.
    apply filter_orb_false. }
  assert (Et : bound.masked_parameters model true batchnorm residual =
    (flat_map matched (retained model batchnorm residual), None)).
  { rewrite masked_parameters_quiet by exact Hattr. f_equal.
    apply flat_map_ext_Forall. apply Forall_forall. intros m _.
    apply filter_orb_true. }
  split; [exact Ef|split; [exact Et|split; [|split]]].
  - intros m mask param bias Hm Hin Hnb.
    assert (Hy : In (mask, param)
                    (filter (fun mp => negb (is_bias_pair m mp) || bias)
                            (matched m))).
    { apply filter_In. split; [exact Hin|]. apply orb_true_iff. left.
      unfold is_bias_pair. simpl. destruct (nn.getattr_bias m) as [| |t];
        try reflexivity. simpl. apply negb_true_iff. apply Nat.eqb_neq.
      intros Heq. apply Hnb. rewrite Heq. reflexivity. }
    split.
    + rewrite module_pairs_present by (apply (Hpres m mask param Hm Hin)).
      exact Hy.
    + rewrite masked_parameters_quiet by exact Hattr. simpl.
      apply in_flat_map. exists m. split; [exact Hm | exact Hy].
  - intros m mask param Hm Hin Hb.
    destruct (matched m) as [|p l] eqn:E.
    + rewrite module_pairs_nil in Hin by exact E. exact Hin.
    + rewrite module_pairs_present in Hin.
      * simpl in Hin. apply filter_In in Hin. destruct Hin as [_ Hc].
        rewrite orb_false_r in Hc. unfold is_bias_pair in Hc. simpl in Hc.
        rewrite Hb in Hc. simpl in Hc. rewrite Nat.eqb_refl in Hc.
        discriminate Hc.
      * apply Hattr; [exact Hm|]. rewrite E. discriminate.
  - rewrite Ef, Et. simpl. apply retained_bias_count.
Qed.

(** ** Which masks a module is zipped with *)



(** The pairs a module yields are among the pairs of its zip. *)
Lemma module_pairs_matched (m : nn.module) (bias : bool) (mp : tensor * tensor) :
  In mp (fst (generator.module_pairs m bias)) -> In mp (matched m).
Proof.
  intros H. destruct (matched m) as [|p l] eqn:E.
  - rewrite module_pairs_nil in H by exact E. exact H.
  - destruct (nn.getattr_bias m) eqn:Eb.
    + rewrite module_pairs_missing in H;
        [exact (False_ind _ H) | exact Eb | rewrite E; discriminate].
    + rewrite module_pairs_present in H by (rewrite Eb; discriminate).
      simpl in H. apply filter_In in H. rewrite <- E. tauto.
    + rewrite module_pairs_present in H by (rewrite Eb; discriminate).
      simpl in H. apply filter_In in H. rewrite <- E. tauto.
Qed.



(** Outside the data model, on a module that owns a parameter and has a
    child, the zip takes the mask of the child. *)
Example child_mask_zipped_outside_data_model :
  own_masks conv_with_child = [] /\
  matched conv_with_child = [(2, 1)] /\
  ~ in_data_model conv_with_child.
Proof.
  split; [reflexivity|]. split; [reflexivity|].
  intros [H|H]; discriminate H.
Qed.

(** ** Calls of [masks] over time *)

(** A mutation between two calls is visible in the second. *)
Example mutation_changes_masks :
  run [Call OpMasks; Mutate (add_mask 9); Call OpMasks] toy_conv =
    [(OpMasks, Tensors [2]); (OpMasks, Tensors [2; 9])].
Proof. reflexivity. Qed.

(** ** Behaviour at the edges of the data model *)

(** The name tested for "mask" is the qualified one: a buffer below a child
    registered as [mask_head] is discovered whatever its own name. *)
Example qualified_name_decides : generator.masks masked_path = [5].
Proof. reflexivity. Qed.

(** A tensor registered twice is reported once, under its first name. *)
Example shared_buffer_reported_once :
  nn.named_buffers shared_buffer = [("scale", 5)] /\
  generator.masks shared_buffer = [].
Proof. split; reflexivity. Qed.

(** A module with a zipped pair and no [bias] attribute ends its loop with
    [AttributeError]. *)
Example missing_bias_attribute_raises :
  generator.module_pairs identity_over_linear false =
    ([], Some AttributeError).
Proof. reflexivity. Qed.

(** * Further properties of the traversals *)

(** ** How the loop over a zip ends *)

Lemma module_pairs_offending (m : nn.module) (bias : bool) :
  offending m = true -> generator.module_pairs m bias = raise AttributeError.
Proof.
  unfold offending. intros H. apply module_pairs_missing.
  - destruct (matched m); [discriminate H|].
    destruct (nn.getattr_bias m); [reflexivity | discriminate H | discriminate H].
  - destruct (matched m); [discriminate H | discriminate].
Qed.

Lemma module_pairs_inoffensive (m : nn.module) (bias : bool) :
  offending m = false ->
  generator.module_pairs m bias = (yielded_by bias m, None).
Proof.
  unfold offending, yielded_by. intros H.
  destruct (matched m) as [|p l] eqn:E.
  - rewrite module_pairs_nil by exact E. reflexivity.
  - rewrite <- E. apply module_pairs_present.
    intros Hb. rewrite Hb in H. discriminate H.
Qed.

(** Whatever the namespace, every yielded pair comes from the zip of a
    module of the tree. *)
Lemma masked_parameters_in_origin
      (g : generator.globals) (model : nn.module)
      (bias batchnorm residual : bool) (mask param : tensor) :
  In (mask, param)
     (fst (generator.masked_parameters_in g model bias batchnorm residual)) ->
  exists m, In m (nn.modules model) /\ In (mask, param) (matched m).
Proof.
  unfold generator.masked_parameters_in, for_filtered. intros H.
  apply for_In in H. destruct H as [m [Hm Hin]].
  exists m. split; [exact Hm|].
  destruct (generator.prunable_in g m batchnorm residual) as [e|[|]];
    try contradiction.
  apply module_pairs_matched in Hin. exact Hin.
Qed.

(** ** One mask, one parameter *)

Lemma filter_map_snd_NoDup {A B} (f : A * B -> bool) (l : list (A * B)) :
  NoDup (map snd l) -> NoDup (map snd (filter f l)).
Proof.
  induction l as [|x l IH]; simpl; intros H; [constructor|].
  inversion H as [|? ? Hx Hnd]; subst.
  destruct (f x); simpl; [|apply IH; exact Hnd].
  constructor; [|apply IH; exact Hnd].
  intros Hin. apply Hx. apply in_map_iff in Hin.
  destruct Hin as [y [Hy Hin]]. apply filter_In in Hin.
  apply in_map_iff. exists y. tauto.
Qed.

Lemma filter_map_fst_NoDup {A B} (f : A * B -> bool) (l : list (A * B)) :
  NoDup (map fst l) -> NoDup (map fst (filter f l)).
Proof.
  induction l as [|x l IH]; simpl; intros H; [constructor|].
  inversion H as [|? ? Hx Hnd]; subst.
  destruct (f x); simpl; [|apply IH; exact Hnd].
  constructor; [|apply IH; exact Hnd].
  intros Hin. apply Hx. apply in_map_iff in Hin.
  destruct Hin as [y [Hy Hin]]. apply filter_In in Hin.
  apply in_map_iff. exists y. tauto.
Qed.

Lemma combine_fst_NoDup {A B} (l1 : list A) (l2 : list B) :
  NoDup l1 -> NoDup (map fst (combine l1 l2)).
Proof.
  revert l2. induction l1 as [|x l1 IH]; intros [|y l2] Hnd; simpl;
    try constructor.
  - inversion Hnd as [|? ? Hx _]; subst. intros Hin. apply Hx.
    apply in_map_iff in Hin. destruct Hin as [[a b] [Ha Hin]].
    simpl in Ha. subst a. apply in_combine_l in Hin. exact Hin.
  - apply IH. inversion Hnd; assumption.
Qed.

Lemma masks_NoDup (m : nn.module) : NoDup (generator.masks m).
Proof.
  unfold generator.masks. apply filter_map_snd_NoDup.
  rewrite named_buffers_eq. apply loop_NoDup.
Qed.

Lemma NoDup_fst_functional {A B} (l : list (A * B)) a b1 b2 :
  NoDup (map fst l) -> In (a, b1) l -> In (a, b2) l -> b1 = b2.
Proof.
  induction l as [|[x y] l IH]; simpl; intros Hnd H1 H2; [contradiction|].
  inversion Hnd as [|? ? Hx Hnd']; subst.
  destruct H1 as [H1|H1], H2 as [H2|H2].
  - congruence.
  - inversion H1; subst. exfalso. apply Hx. apply in_map_iff.
    exists (a, b2). auto.
  - inversion H2; subst. exfalso. apply Hx. apply in_map_iff.
    exists (a, b1). auto.
  - apply IH; assumption.
Qed.

Lemma NoDup_snd_functional {A B} (l : list (A * B)) a1 a2 b :
  NoDup (map snd l) -> In (a1, b) l -> In (a2, b) l -> a1 = a2.
Proof.
  induction l as [|[x y] l IH]; simpl; intros Hnd H1 H2; [contradiction|].
  inversion Hnd as [|? ? Hy Hnd']; subst.
  destruct H1 as [H1|H1], H2 as [H2|H2].
  - congruence.
  - inversion H1; subst. exfalso. apply Hy. apply in_map_iff.
    exists (a2, b). auto.
  - inversion H2; subst. exfalso. apply Hy. apply in_map_iff.
    exists (a1, b). auto.
  - apply IH; assumption.
Qed.

(** X4. Within one module the pairing is one to one, whatever the tree:
    no mask is discovered twice, no own parameter is listed twice, so among
    the pairs a module yields a mask determines its parameter and a
    parameter determines its mask. *)
Theorem module_pairing_one_to_one (m : nn.module) (bias : bool) :
  NoDup (generator.masks m) /\
  NoDup (nn.parameters m false) /\
  NoDup (map fst (fst (generator.module_pairs m bias))) /\
  NoDup (map snd (fst (generator.module_pairs m bias))) /\
  (forall mask p1 p2,
      In (mask, p1) (fst (generator.module_pairs m bias)) ->
      In (mask, p2) (fst (generator.module_pairs m bias)) -> p1 = p2) /\
  (forall mask1 mask2 p,
      In (mask1, p) (fst (generator.module_pairs m bias)) ->
      In (mask2, p) (fst (generator.module_pairs m bias)) -> mask1 = mask2).
Proof.
  assert (Hf : NoDup (map fst (fst (generator.module_pairs m bias)))).
  { destruct (offending m) eqn:E.
    - rewrite (module_pairs_offending m bias E). constructor.
    - rewrite (module_pairs_inoffensive m bias E). simpl.
      apply filter_map_fst_NoDup, combine_fst_NoDup, masks_NoDup. }
  assert (Hs : NoDup (map snd (fst (generator.module_pairs m bias)))).
  { destruct (offending m) eqn:E.
    - rewrite (module_pairs_offending m bias E). constructor.
    - rewrite (module_pairs_inoffensive m bias E). simpl.
      apply filter_map_snd_NoDup, combine_snd_NoDup, own_parameters_NoDup. }
  split; [apply masks_NoDup|]. split; [apply own_parameters_NoDup|].
  split; [exact Hf|]. split; [exact Hs|]. split.
  - intros mask p1 p2. apply NoDup_fst_functional. exact Hf.
  - intros mask1 mask2 p. apply NoDup_snd_functional. exact Hs.
Qed.

Lemma module_pairing_one_to_one_witness :
  NoDup (map fst (fst (generator.module_pairs masked_linear true))) /\
  fst (generator.module_pairs masked_linear true) = [(3, 1); (4, 2)].
Proof.
  split.
  - apply (proj1 (proj2 (proj2 (module_pairing_one_to_one masked_linear true)))).
  - reflexivity.
Defined.

(** ** Masks of a module and masks of the model *)

Lemma string_app_assoc (a b c : string) :
  ((a ++ b) ++ c = a ++ (b ++ c))%string.
Proof.
  induction a as [|x a IH]; simpl; [reflexivity|]. rewrite IH. reflexivity.
Qed.

Lemma str_in_app (sub s t : string) :
  str_in sub t = true -> str_in sub (s ++ t)%string = true.
Proof.
  intros H. induction s as [|c s IH]; simpl; [exact H|].
  rewrite IH. apply orb_true_r.
Qed.

Lemma name_suffix_root (P : string) : name_suffix P "".
Proof.
  intros k. destruct P as [|c r].
  - exists "". reflexivity.
  - exists (String c r ++ ".")%string. simpl.
    rewrite string_app_assoc. reflexivity.
Qed.

Lemma name_suffix_step (P R n : string) :
  name_suffix P R -> name_suffix (nn.join_name P n) (nn.join_name R n).
Proof.
  intros H k. destruct (H n) as [s Hs].
  destruct (nn.join_name R n) as [|c r] eqn:ER.
  - apply name_suffix_root.
  - rewrite Hs. destruct s as [|a s].
    + exists "". reflexivity.
    + exists (String a s). simpl. rewrite string_app_assoc. reflexivity.
Qed.

Lemma somes_qualified_In get (P : string) (m : nn.module) name t :
  In (name, t) (somes (nn.qualified get (P, m))) <->
  exists k, name = nn.join_name P k /\ In (k, Some t) (get m).
Proof.
  rewrite somes_In. unfold nn.qualified. simpl. rewrite in_map_iff. split.
  - intros [[k v] [E Hin]]. simpl in E. inversion E; subst.
    exists k. auto.
  - intros [k [E Hin]]. exists (k, Some t). simpl. subst name. auto.
Qed.

(** Moving a subtree under a longer prefix lengthens the names of its
    buffers on the left. *)
Lemma subtree_buffers_suffix (m : nn.module) :
  forall P R name t,
    name_suffix P R -> In (name, t) (subtree_buffers R m) ->
    exists s, In ((s ++ name)%string, t) (subtree_buffers P m).
Proof.
  induction m as [k ps bs b cs IH] using nn.module_ind.
  intros P R name t HPR Hin. simpl in Hin. apply in_app_or in Hin.
  destruct Hin as [Hin|Hin].
  - apply somes_qualified_In in Hin. destruct Hin as [key [E Hin]].
    destruct (HPR key) as [s Hs]. exists s. simpl. apply in_or_app. left.
    apply somes_qualified_In. exists key. subst name. auto.
  - apply in_flat_map in Hin. destruct Hin as [nc [Hnc Hin]].
    rewrite Forall_forall in IH.
    destruct (IH nc Hnc _ _ name t (name_suffix_step (fst nc) HPR) Hin)
      as [s Hs].
    exists s. simpl. apply in_or_app. right.
    apply in_flat_map. exists nc. auto.
Qed.

(** The buffers of a module of the tree are among the buffers of the tree,
    under the prefix the module has in it. *)
Lemma subtree_buffers_descendant (m m' : nn.module) :
  In m' (dfs m) ->
  forall P, exists P', incl (subtree_buffers P' m') (subtree_buffers P m).
Proof.
  induction m as [k ps bs b cs IH] using nn.module_ind.
  intros Hin P. simpl in Hin. destruct Hin as [Hin|Hin].
  - subst m'. exists P. intros x Hx. exact Hx.
  - apply in_flat_map in Hin. destruct Hin as [nc [Hnc Hin]].
    rewrite Forall_forall in IH.
    destruct (IH nc Hnc Hin (nn.join_name P (fst nc))) as [P' HP'].
    exists P'. intros x Hx. simpl. apply in_or_app. right.
    apply in_flat_map. exists nc. split; [exact Hnc | apply HP'; exact Hx].
Qed.

(** X7. When each buffer tensor of the model is registered once, the masks
    discovered for any module of the tree are among the masks discovered for
    the model, and so is the mask of every pair [masked_parameters]
    yields. *)
Theorem module_masks_within_model_masks
        (model : nn.module)
        (Hown : NoDup (map snd (subtree_buffers "" model))) :
  (forall m, In m (dfs model) ->
             incl (generator.masks m) (generator.masks model)) /\
  (forall bias batchnorm residual mask param,
      In (mask, param)
         (fst (generator.masked_parameters model bias batchnorm residual)) ->
      In mask (generator.masks model)).
Proof.
  assert (H : forall m, In m (dfs model) ->
                        incl (generator.masks m) (generator.masks model)).
  { intros m Hm t Ht. apply masks_sound in Ht.
    destruct Ht as [name [Hin Hmask]].
    destruct (subtree_buffers_descendant model m Hm "") as [P' HP'].
    destruct (subtree_buffers_suffix m name t (name_suffix_root P') Hin)
      as [s Hs].
    unfold generator.masks. rewrite (named_buffers_unique model Hown).
    apply in_map_iff. exists ((s ++ name)%string, t). split; [reflexivity|].
    apply filter_In. split; [apply HP'; exact Hs|].
    simpl. apply str_in_app. exact Hmask. }
  split; [exact H|].
  intros bias batchnorm residual mask param Hin.
  apply masked_parameters_in_origin in Hin. destruct Hin as [m [Hm Hin]].
  rewrite modules_dfs in Hm. apply (H m Hm).
  unfold matched in Hin. apply in_combine_l in Hin. exact Hin.
Qed.

Lemma module_masks_within_model_masks_witness :
  NoDup (map snd (subtree_buffers "" toy_model)) /\
  incl (generator.masks toy_conv) (generator.masks toy_model).
Proof.
  assert (H : NoDup (map snd (subtree_buffers "" toy_model))).
  { simpl. repeat constructor; simpl; intuition discriminate. }
  split; [exact H|].
  apply (proj1 (module_masks_within_model_masks toy_model H)).
  right. left. reflexivity.
Defined.

(** Without single ownership a mask of a module can be missing from the
    masks of the model. *)
Example shared_mask_hidden_from_model :
  generator.masks (snd (hd ("", shared_buffer) (nn._modules shared_buffer))) = [5] /\
  generator.masks shared_buffer = [].
Proof. split; reflexivity. Qed.


(** * The functions in the namespace of the file

    [generator.py] binds [layers_class_class] and reads [layers_class]:
    every function that calls [trainable] or [prunable] ends with
    [NameError].  Each statement below gives, next to what the file does,
    what the same body does where [layers_class] is bound. *)

(** X1. In the namespace [generator.py] has, [trainable] and [prunable]
    raise [NameError] on every module, and [parameters] and
    [masked_parameters] raise it on every model and for every choice of
    flags before anything is yielded: the first module the lazy filter
    tests is the model itself.  In any namespace the two predicates raise
    [NameError] exactly when [layers_class] is not bound there. *)
Theorem unbound_layers_class_raises :
  (forall module, generator.trainable module = inl NameError) /\
  (forall module batchnorm residual,
      generator.prunable module batchnorm residual = inl NameError) /\
  (forall model, generator.parameters model = ([], Some NameError)) /\
  (forall model bias batchnorm residual,
      generator.masked_parameters model bias batchnorm residual =
      ([], Some NameError)) /\
  (forall g module,
      generator.trainable_in g module = inl NameError <->
      g "layers_class" = false) /\
  (forall g module batchnorm residual,
      generator.prunable_in g module batchnorm residual = inl NameError <->
      g "layers_class" = false).
Proof.
  split; [|split; [|split; [|split; [|split]]]].
  - intros module. apply trainable_in_unbound. reflexivity.
  - intros module batchnorm residual. apply prunable_in_unbound. reflexivity.
  - intros model. apply parameters_in_unbound. reflexivity.
  - intros model bias batchnorm residual.
    apply masked_parameters_in_unbound. reflexivity.
  - intros g module. split; [|apply trainable_in_unbound].
    destruct (g "layers_class") eqn:E; [|reflexivity].
    rewrite trainable_in_bound by exact E. discriminate.
  - intros g module batchnorm residual. split; [|apply prunable_in_unbound].
    destruct (g "layers_class") eqn:E; [|reflexivity].
    rewrite prunable_in_bound by exact E. discriminate.
Qed.

Lemma unbound_layers_class_raises_witness :
  generator.generator_globals "layers_class" = false /\
  generator.prunable_in generator.generator_globals toy_conv false false =
    inl NameError.
Proof.
  assert (H : generator.generator_globals "layers_class" = false)
    by reflexivity.
  split; [exact H|].
  apply (proj2 (proj2 (proj2 (proj2 (proj2 unbound_layers_class_raises))))).
  exact H.
Defined.

(** C2. On a convolution, and on a batch normalisation with [batchnorm]
    set, [prunable] returns no truth value: it raises [NameError], whatever
    the flags.  With [layers_class] bound the same body returns [True] on
    the convolution, and on the batch normalisation [False] with the flag
    off and [True] with it on. *)
Theorem prunable_raises_NameError :
  generator.generator_globals "layers_class" = false /\
  generator.prunable toy_conv false false = inl NameError /\
  generator.prunable toy_bn true false = inl NameError /\
  generator.prunable toy_bn false false = inl NameError /\
  generator.prunable_in generator.layers_class_bound toy_conv false false =
    inr true /\
  generator.prunable_in generator.layers_class_bound toy_bn true false =
    inr true /\
  generator.prunable_in generator.layers_class_bound toy_bn false false =
    inr false.
Proof. repeat split. Qed.


(** C4. [trainable] raises [NameError] on the convolution of the toy model,
    and [parameters] raises it on the toy model, and on an Identity layer
    above a linear layer, before yielding any parameter.  With
    [layers_class] bound the same body yields the three parameters of the
    toy model in depth-first order, and below the Identity layer the two
    parameters of the linear layer without the Identity layer's own. *)
Theorem parameters_raises_NameError :
  generator.trainable toy_conv = inl NameError /\
  generator.parameters toy_model = ([], Some NameError) /\
  generator.parameters identity_over_linear = ([], Some NameError) /\
  generator.parameters_in generator.layers_class_bound toy_model =
    ([1; 3; 4], None) /\
  generator.parameters_in generator.layers_class_bound identity_over_linear =
    ([1; 2], None).
Proof. repeat split. Qed.

(** C1. On a linear layer whose weight and bias each have a mask,
    [masked_parameters] raises [NameError] before yielding anything, with
    [bias=False] and with [bias=True]: the bias flag is never consulted.
    With [layers_class] bound the same body yields the weight pair without
    the flag, and the weight pair followed by the bias pair with it. *)
Theorem bias_flag_never_consulted :
  generator.masked_parameters masked_linear false false false =
    ([], Some NameError) /\
  generator.masked_parameters masked_linear true false false =
    ([], Some NameError) /\
  generator.masked_parameters_in generator.layers_class_bound
    masked_linear false false false = ([(3, 1)], None) /\
  generator.masked_parameters_in generator.layers_class_bound
    masked_linear true false false = ([(3, 1); (4, 2)], None).
Proof. repeat split. Qed.

(** C7. On the toy model (a masked convolution and a batch normalisation
    without a mask) [masked_parameters] ends with [NameError] and yields no
    pair, with [batchnorm] off and with it on.  With [layers_class] bound
    the same body yields the one pair of the convolution in both calls and
    raises nothing. *)
Theorem toy_model_raises_NameError :
  generator.masked_parameters toy_model false false false =
    ([], Some NameError) /\
  generator.masked_parameters toy_model false true false =
    ([], Some NameError) /\
  generator.masks toy_bn = [] /\
  generator.masked_parameters_in generator.layers_class_bound
    toy_model false false false = ([(2, 1)], None) /\
  generator.masked_parameters_in generator.layers_class_bound
    toy_model false true false = ([(2, 1)], None).
Proof. repeat split. Qed.

(** C9. On a convolution with two masks and one parameter
    [masked_parameters] ends with [NameError] before the zip is reached.
    With [layers_class] bound the same body yields the one pair the
    shorter sequence allows, the first mask with the parameter, and raises
    nothing. *)
Theorem mismatch_ends_in_NameError :
  List.length (generator.masks two_masks_one_param) = 2 /\
  List.length (nn.parameters two_masks_one_param false) = 1 /\
  generator.masked_parameters two_masks_one_param true false false =
    ([], Some NameError) /\
  generator.masked_parameters_in generator.layers_class_bound
    two_masks_one_param true false false = ([(2, 1)], None).
Proof. repeat split. Qed.

(** * The ResNet constructors *)

Module lottery_resnet_facts.
Import lottery_resnet_model.

Lemma block_loop_spec (segment_index : nat) (filters : Z) :
  forall block_indices c bs,
    block_loop segment_index filters block_indices (c, bs) =
    (channels_left c filters block_indices,
     bs ++ blocks_from c filters
             (downsample_flags segment_index block_indices)).
Proof.
  induction block_indices as [|i rest IH]; intros c bs; simpl.
  - rewrite app_nil_r. reflexivity.
  - rewrite IH, <- app_assoc. simpl. destruct rest; reflexivity.
Qed.

Lemma segment_loop_spec :
  forall segments c bs,
    snd (segment_loop segments (c, bs)) = bs ++ plan_blocks c segments.
Proof.
  induction segments as [|[si [f n]] rest IH]; intros c bs; simpl.
  - rewrite app_nil_r. reflexivity.
  - rewrite block_loop_spec, IH, app_assoc. reflexivity.
Qed.

Lemma ResNet_blocks (plan : list (Z * Z)) nc dense net :
  ResNet plan nc dense = inr net ->
  blocks net = plan_blocks (fst (hd (0, 0)%Z plan)) (enumerate plan) /\
  conv net = Conv2d 3 (fst (hd (0, 0)%Z plan)) 3 1 (Some 1%Z) false /\
  bn net = BatchNorm2d (fst (hd (0, 0)%Z plan)) /\
  in_features_of (fc net) = fst (last plan (0, 0)%Z).
Proof.
  unfold ResNet. destruct plan as [|[f0 n0] rest]; [discriminate|].
  intros H. rewrite segment_loop_spec in H. injection H as <-.
  repeat split. destruct dense; reflexivity.
Qed.

Lemma downsample_flags_later (a : bool) (m k : nat) :
  map (fun i => a && (i =? 0)%nat) (seq (S k) m) = repeat false m.
Proof.
  revert k. induction m as [|m IH]; intros k; simpl; [reflexivity|].
  rewrite IH, andb_false_r. reflexivity.
Qed.

Lemma downsample_flags_range (segment_index m : nat) :
  downsample_flags segment_index (seq 0 (S m)) =
  (0 <? segment_index)%nat :: repeat false m.
Proof.
  unfold downsample_flags. simpl.
  rewrite downsample_flags_later, andb_true_r. reflexivity.
Qed.

(** *** Channels *)

Lemma channels_after_blocks_from (c' c filters : Z) (flags : list bool) :
  channels_after c' (blocks_from c filters flags) =
  match flags with [] => c' | _ :: _ => filters end.
Proof.
  unfold channels_after. revert c' c.
  induction flags as [|d rest IH]; intros c' c; simpl; [reflexivity|].
  rewrite IH. destruct rest; reflexivity.
Qed.

Lemma channels_after_segment (c filters : Z) (si : nat) (idxs : list nat) :
  channels_after c (blocks_from c filters (downsample_flags si idxs)) =
  channels_left c filters idxs.
Proof.
  rewrite channels_after_blocks_from. destruct idxs; reflexivity.
Qed.

Lemma channels_after_app (c : Z) (a b : list block) :
  channels_after c (a ++ b) = channels_after (channels_after c a) b.
Proof. apply fold_left_app. Qed.

Lemma chained_blocks_from (c filters : Z) (flags : list bool) :
  chained c (blocks_from c filters flags).
Proof.
  revert c. induction flags as [|d rest IH]; intros c; simpl; [exact I|].
  split; [reflexivity | apply IH].
Qed.

Lemma chained_app (c : Z) (a b : list block) :
  chained c a -> chained (channels_after c a) b -> chained c (a ++ b).
Proof.
  revert c. induction a as [|x a IH]; intros c Ha Hb; simpl in *; [exact Hb|].
  destruct Ha as [Hx Ha]. split; [exact Hx | apply IH; assumption].
Qed.

Lemma plan_blocks_chained :
  forall segments c, chained c (plan_blocks c segments).
Proof.
  induction segments as [|[si [f n]] rest IH]; intros c; simpl; [exact I|].
  apply chained_app; [apply chained_blocks_from|].
  rewrite channels_after_segment. apply IH.
Qed.

Lemma plan_blocks_channels_after :
  forall segments c,
    channels_after c (plan_blocks c segments) =
    fold_left (fun c fn => channels_left c (fst fn) (range (snd fn)))
              (map snd segments) c.
Proof.
  induction segments as [|[si [f n]] rest IH]; intros c; simpl; [reflexivity|].
  rewrite channels_after_app, channels_after_segment. apply IH.
Qed.

Lemma combine_seq_snd {A} (l : list A) (k : nat) :
  map snd (combine (seq k (List.length l)) l) = l.
Proof.
  revert k. induction l as [|x l IH]; intros k; simpl; [reflexivity|].
  rewrite IH. reflexivity.
Qed.

Lemma Block_made (c filters : Z) (flags : list bool) :
  Forall (fun b => exists d, b = Block (block_in b) (block_out b) d)
         (blocks_from c filters flags).
Proof.
  revert c. induction flags as [|d rest IH]; intros c; simpl; constructor.
  - exists d. reflexivity.
  - apply IH.
Qed.

Lemma plan_blocks_made :
  forall segments c,
    Forall (fun b => exists d, b = Block (block_in b) (block_out b) d)
           (plan_blocks c segments).
Proof.
  induction segments as [|[si [f n]] rest IH]; intros c; simpl; [constructor|].
  apply Forall_app. split; [apply Block_made | apply IH].
Qed.

(** X8. [ResNet(plan, ...)] raises [IndexError] exactly on the empty plan.
    Otherwise the first convolution gives [plan[0][0]] channels, every block
    is a [Block] whose input channels are the output channels of the block
    before it (of the first convolution for the first block), and when the
    last segment of the plan has at least one block the classifier takes
    exactly the channels that leave the last block. *)
Theorem resnet_channels_chain
        (plan : list (Z * Z)) (num_classes : Z) (dense_classifier : bool) :
  (ResNet plan num_classes dense_classifier = inl IndexError <-> plan = []) /\
  (forall net,
      ResNet plan num_classes dense_classifier = inr net ->
      out_channels_of (conv net) = fst (hd (0, 0)%Z plan) /\
      chained (out_channels_of (conv net)) (blocks net) /\
      Forall (fun b => exists d, b = Block (block_in b) (block_out b) d)
             (blocks net) /\
      ((0 < snd (last plan (0, 0)%Z))%Z ->
       in_features_of (fc net) =
       channels_after (out_channels_of (conv net)) (blocks net))).
Proof.
  split.
  - destruct plan as [|[f0 n0] rest]; simpl; split; intros H;
      try reflexivity; discriminate H.
  - intros net H. apply ResNet_blocks in H.
    destruct H as [Hb [Hc [_ Hfc]]]. rewrite Hb, Hc, Hfc. simpl.
    split; [reflexivity|]. split; [apply plan_blocks_chained|].
    split; [apply plan_blocks_made|].
    intros Hlast. rewrite plan_blocks_channels_after.
    unfold enumerate. rewrite combine_seq_snd.
    destruct plan as [|p0 rest] using rev_ind; [simpl in Hlast; lia|].
    rewrite last_last in *. rewrite fold_left_app. simpl.
    destruct p0 as [f n]. simpl in *. unfold range.
    destruct (Z.to_nat n) eqn:E; [lia | reflexivity].
Qed.

Lemma resnet_channels_chain_witness :
  exists net, ResNet [(16, 1); (32, 2)]%Z 10 false = inr net /\
              in_features_of (fc net) =
              channels_after (out_channels_of (conv net)) (blocks net).
Proof.
  eexists. split; [reflexivity|].
  apply (proj2 (resnet_channels_chain [(16, 1); (32, 2)]%Z 10 false)
               _ eq_refl).
  reflexivity.
Defined.

(** *** Shortcuts *)

Lemma Block_agrees (c filters : Z) (d : bool) :
  d = true \/ c = filters -> shortcut_agrees (Block c filters d).
Proof.
  intros [H|H]; subst.
  - unfold shortcut_agrees. simpl. repeat split.
  - unfold shortcut_agrees. simpl. rewrite Z.eqb_refl.
    destruct d; simpl; repeat split.
Qed.

Lemma blocks_from_agree (c filters : Z) (flags : list bool) :
  match flags with
  | [] => True
  | d :: _ => d = true \/ c = filters
  end ->
  Forall shortcut_agrees (blocks_from c filters flags).
Proof.
  destruct flags as [|d rest]; simpl; intros H; constructor.
  - apply Block_agrees. exact H.
  - clear H. induction rest as [|d' rest IH]; simpl; constructor.
    + apply Block_agrees. right. reflexivity.
    + exact IH.
Qed.

Lemma plan_blocks_agree :
  forall (plan : list (Z * Z)) (k : nat) (c : Z),
    (k = 0%nat -> match plan with
                  | [] => True
                  | (f, _) :: _ => c = f
                  end) ->
    Forall shortcut_agrees
           (plan_blocks c (combine (seq k (List.length plan)) plan)).
Proof.
  induction plan as [|[f n] rest IH]; intros k c Hk; simpl; [constructor|].
  apply Forall_app. split.
  - unfold range. destruct (Z.to_nat n) as [|m]; [constructor|].
    rewrite downsample_flags_range. apply blocks_from_agree.
    destruct k as [|k]; [right; apply Hk; reflexivity | left; reflexivity].
  - apply IH. intros C. discriminate C.
Qed.

(** X9. In a network built by [ResNet] the shortcut of every block agrees
    with its main path, whatever the plan: it is an [Identity2d] beside a
    stride-1 path that keeps the channel count, or the stride-2 projection
    beside a stride-2 path.  [Block] alone does not ensure this: called
    without [downsample] on differing channel counts it puts the stride-2
    projection beside a stride-1 path. *)
Theorem resnet_shortcuts_agree
        (plan : list (Z * Z)) (num_classes : Z) (dense_classifier : bool)
        (net : resnet)
        (Hnet : ResNet plan num_classes dense_classifier = inr net) :
  Forall shortcut_agrees (blocks net) /\
  ~ shortcut_agrees (Block 16 32 false).
Proof.
  split.
  - apply ResNet_blocks in Hnet. destruct Hnet as [Hb _]. rewrite Hb.
    apply plan_blocks_agree. intros _.
    destruct plan as [|[f n] rest]; reflexivity.
  - unfold shortcut_agrees. simpl. intros [H _]. discriminate H.
Qed.

Lemma resnet_shortcuts_agree_witness :
  exists net, ResNet [(16, 1); (32, 2); (32, 1)]%Z 10 true = inr net /\
              Forall shortcut_agrees (blocks net).
Proof.
  eexists. split; [reflexivity|].
  apply (proj1 (@resnet_shortcuts_agree
                  [(16, 1); (32, 2); (32, 1)]%Z 10 true _ eq_refl)).
Defined.

(** *** Counting blocks *)

Lemma blocks_from_length (c filters : Z) (flags : list bool) :
  List.length (blocks_from c filters flags) = List.length flags.
Proof.
  revert c. induction flags as [|d rest IH]; intros c; simpl;
    [reflexivity | rewrite IH; reflexivity].
Qed.

Lemma plan_blocks_length :
  forall segments c,
    List.length (plan_blocks c segments) =
    list_sum (map (fun seg => Z.to_nat (snd (snd seg))) segments).
Proof.
  induction segments as [|[si [f n]] rest IH]; intros c; simpl; [reflexivity|].
  rewrite length_app, blocks_from_length, IH.
  unfold downsample_flags, range. rewrite length_map, length_seq. reflexivity.
Qed.

Lemma plan_accepted (D W : Z) :
  ((D - 2) mod 3 = 0)%Z ->
  lottery_resnet._plan D W =
  inr [(W, (D - 2) / 6); (2 * W, (D - 2) / 6); (4 * W, (D - 2) / 6)]%Z.
Proof.
  intros H. unfold lottery_resnet._plan.
  apply Z.eqb_eq in H. rewrite H. reflexivity.
Qed.

Lemma plan_rejected (D W : Z) :
  ((D - 2) mod 3 <> 0)%Z -> lottery_resnet._plan D W = inl ValueError.
Proof.
  intros H. unfold lottery_resnet._plan.
  apply Z.eqb_neq in H. rewrite H. reflexivity.
Qed.

(** X10. The number of blocks [ResNet] builds is the sum of the block
    counts of the plan, a negative count giving none.  A network built
    through [_plan(D, W)] has [2 + 6 * max(0, (D-2)//6)] layers ([_plan]
    raising [ValueError] when [D - 2] is not a multiple of 3); for [D >= 2]
    this is the requested depth [D] exactly when [D - 2] is a multiple of 6,
    and is smaller otherwise. *)
Theorem resnet_depth (D W num_classes : Z) (dense_classifier : bool) :
  (forall plan net,
      ResNet plan num_classes dense_classifier = inr net ->
      List.length (blocks net) =
      list_sum (map (fun seg => Z.to_nat (snd seg)) plan)) /\
  (((D - 2) mod 3 <> 0)%Z ->
   cifar_resnet D W num_classes dense_classifier = inl (Raised ValueError)) /\
  (((D - 2) mod 3 = 0)%Z ->
   exists net,
     cifar_resnet D W num_classes dense_classifier = inr net /\
     depth net = (2 + 6 * Z.max 0 ((D - 2) / 6))%Z /\
     ((2 <= D)%Z ->
      (depth net <= D)%Z /\
      (depth net = D <-> ((D - 2) mod 6 = 0)%Z))).
Proof.
  assert (Hlen : forall plan net,
      ResNet plan num_classes dense_classifier = inr net ->
      List.length (blocks net) =
      list_sum (map (fun seg => Z.to_nat (snd seg)) plan)).
  { intros plan net H. apply ResNet_blocks in H. destruct H as [Hb _].
    rewrite Hb, plan_blocks_length. unfold enumerate.
    rewrite <- (combine_seq_snd plan 0) at 3. rewrite map_map. reflexivity. }
  split; [exact Hlen|]. split.
  - intros H. unfold cifar_resnet. rewrite plan_rejected by exact H.
    reflexivity.
  - intros H. unfold cifar_resnet, _resnet. rewrite plan_accepted by exact H.
    destruct (ResNet [(W, (D - 2) / 6); (2 * W, (D - 2) / 6);
                      (4 * W, (D - 2) / 6)]%Z num_classes dense_classifier)
      as [e|net] eqn:E; [discriminate E|].
    exists net. split; [reflexivity|].
    assert (Hd : depth net = (2 + 6 * Z.max 0 ((D - 2) / 6))%Z).
    { unfold depth. rewrite (Hlen _ _ E).
      unfold list_sum. cbn [map fold_right snd]. lia. }
    split; [exact Hd|]. intros HD. rewrite Hd.
    pose proof (Z.div_mod (D - 2) 6 ltac:(lia)) as Hdm.
    pose proof (Z.mod_pos_bound (D - 2) 6 ltac:(lia)) as Hb.
    assert (0 <= (D - 2) / 6)%Z by (apply Z.div_pos; lia).
    split; [lia|]. split; intros; lia.
Qed.

Lemma resnet_depth_witness :
  exists net, cifar_resnet 23 16 10 false = inr net /\ depth net = 20%Z.
Proof.
  destruct (proj2 (proj2 (resnet_depth 23 16 10 false)) eq_refl)
    as [net [Hnet [Hd _]]].
  exists net. split; [exact Hnet | exact Hd].
Defined.

(** *** The networks of the naming scheme *)

Lemma cifar_resnet_blocks (D W num_classes : Z) (dense_classifier : bool) :
  ((D - 2) mod 3 = 0)%Z ->
  exists net,
    cifar_resnet D W num_classes dense_classifier = inr net /\
    conv net = Conv2d 3 W 3 1 (Some 1%Z) false /\
    fc net = (if dense_classifier then torch_Linear (4 * W) num_classes
              else Linear (4 * W) num_classes) /\
    blocks net =
      match Z.to_nat ((D - 2) / 6) with
      | O => []
      | S m =>
          blocks_from W W (repeat false (S m)) ++
          blocks_from W (2 * W) (true :: repeat false m) ++
          blocks_from (2 * W) (4 * W) (true :: repeat false m)
      end.
Proof.
  intros H. unfold cifar_resnet, _resnet. rewrite plan_accepted by exact H.
  unfold ResNet. eexists. split; [reflexivity|].
  cbn [conv fc blocks]. split; [reflexivity|]. split; [reflexivity|].
  rewrite segment_loop_spec. cbn [app enumerate List.length seq combine].
  cbn [plan_blocks]. unfold range.
  destruct (Z.to_nat ((D - 2) / 6)) as [|m]; [reflexivity|].
  rewrite !downsample_flags_range. cbn [channels_left seq Nat.ltb Nat.leb].
  rewrite app_nil_r. reflexivity.
Qed.

Lemma identity_shortcuts_later (filters : Z) (k : nat) :
  map is_identity_shortcut (blocks_from filters filters (repeat false k)) =
  repeat true k.
Proof.
  induction k as [|k IH]; simpl; [reflexivity|].
  rewrite IH. unfold is_identity_shortcut. simpl. rewrite Z.eqb_refl.
  reflexivity.
Qed.

Lemma strides_later (c filters : Z) (k : nat) :
  map block_stride (blocks_from c filters (repeat false k)) = repeat 1%Z k.
Proof.
  revert c. induction k as [|k IH]; intros c; simpl; [reflexivity|].
  rewrite IH. reflexivity.
Qed.

(** X11. The blocks of a network of the naming scheme, for a depth [D >= 8]
    with [D - 2] a multiple of 3: three segments of [n = (D-2)//6] blocks
    with [W], [2W] and [4W] filters, chained; only the first block of the
    second and of the third segment has stride 2 and a projection shortcut,
    the other [3n - 2] blocks have an [Identity2d] shortcut. *)
Theorem cifar_resnet_structure
        (D W num_classes : Z) (dense_classifier : bool)
        (Hplan : ((D - 2) mod 3 = 0)%Z) (Hdepth : (8 <= D)%Z) :
  exists net m,
    cifar_resnet D W num_classes dense_classifier = inr net /\
    Z.to_nat ((D - 2) / 6) = S m /\
    blocks net =
      blocks_from W W (repeat false (S m)) ++
      blocks_from W (2 * W) (true :: repeat false m) ++
      blocks_from (2 * W) (4 * W) (true :: repeat false m) /\
    map is_identity_shortcut (blocks net) =
      repeat true (S m) ++ false :: repeat true m ++ false :: repeat true m /\
    map block_stride (blocks net) =
      repeat 1%Z (S m) ++ 2%Z :: repeat 1%Z m ++ 2%Z :: repeat 1%Z m /\
    List.length (filter is_identity_shortcut (blocks net)) = (3 * S m - 2)%nat.
Proof.
  destruct (cifar_resnet_blocks D W num_classes dense_classifier Hplan)
    as [net [Hnet [_ [_ Hb]]]].
  assert (Hn : (1 <= (D - 2) / 6)%Z).
  { apply Z.div_le_lower_bound; lia. }
  destruct (Z.to_nat ((D - 2) / 6)) as [|m] eqn:E; [lia|].
  exists net, m. split; [exact Hnet|]. split; [reflexivity|].
  split; [exact Hb|].
  assert (Hid : map is_identity_shortcut (blocks net) =
      repeat true (S m) ++ false :: repeat true m ++ false :: repeat true m).
  { rewrite Hb, !map_app.
    rewrite (identity_shortcuts_later W (S m)).
    cbn [blocks_from map]. rewrite !identity_shortcuts_later.
    reflexivity. }
  split; [exact Hid|]. split.
  - rewrite Hb, !map_app. rewrite (strides_later W W (S m)).
    cbn [blocks_from map]. rewrite !strides_later. reflexivity.
  - assert (Hcount : forall l : list block,
               List.length (filter is_identity_shortcut l) =
               count_occ bool_dec (map is_identity_shortcut l) true).
    { induction l as [|b l IH]; simpl; [reflexivity|].
      destruct (is_identity_shortcut b); simpl; rewrite IH; reflexivity. }
    rewrite Hcount, Hid.
    rewrite !count_occ_app. cbn [count_occ]. rewrite !count_occ_app.
    cbn [count_occ].
    assert (Hrep : forall k, count_occ bool_dec (repeat true k) true = k).
    { induction k as [|k IH]; simpl; [reflexivity | rewrite IH; reflexivity]. }
    destruct (bool_dec false true) as [C|_]; [discriminate C|].
    destruct (bool_dec true true) as [_|C]; [|contradiction].
    rewrite !Hrep. lia.
Qed.

Lemma cifar_resnet_structure_witness :
  exists net, resnet20 10 false = inr net /\
              List.length (filter is_identity_shortcut (blocks net)) = 7%nat.
Proof.
  destruct (@cifar_resnet_structure 20 16 10 false eq_refl ltac:(lia))
    as [net [m [Hnet [Hm [_ [_ [_ Hc]]]]]]].
  exists net. split; [exact Hnet|].
  rewrite Hc. vm_compute in Hm. injection Hm as <-. reflexivity.
Defined.

(** *** The classifier *)

Lemma cifar_resnet_summary (D W num_classes : Z) (dense_classifier : bool) :
  ((D - 2) mod 3 = 0)%Z ->
  exists net,
    cifar_resnet D W num_classes dense_classifier = inr net /\
    depth net = (2 + 6 * Z.max 0 ((D - 2) / 6))%Z /\
    in_features_of (fc net) = (4 * W)%Z /\
    channels_after (out_channels_of (conv net)) (blocks net) =
      (if (8 <=? D)%Z then 4 * W else W)%Z.
Proof.
  intros H.
  destruct (cifar_resnet_blocks D W num_classes dense_classifier H)
    as [net [Hnet [Hc [Hfc Hb]]]].
  exists net. split; [exact Hnet|].
  pose proof (Z.div_mod (D - 2) 6 ltac:(lia)) as Hdm.
  pose proof (Z.mod_pos_bound (D - 2) 6 ltac:(lia)) as Hbound.
  split; [|split].
  - unfold depth. rewrite Hb.
    destruct (Z.to_nat ((D - 2) / 6)) as [|m] eqn:E.
    + simpl List.length. lia.
    + rewrite !length_app, !blocks_from_length. cbn [List.length].
      rewrite !repeat_length. lia.
  - rewrite Hfc. destruct dense_classifier; reflexivity.
  - rewrite Hc, Hb. cbn [out_channels_of].
    destruct (Z.to_nat ((D - 2) / 6)) as [|m] eqn:E.
    + destruct (8 <=? D)%Z eqn:E8; [apply Z.leb_le in E8; lia | reflexivity].
    + rewrite !channels_after_app, !channels_after_blocks_from.
      cbn [repeat].
      destruct (8 <=? D)%Z eqn:E8; [reflexivity | apply Z.leb_gt in E8; lia].
Qed.

(** X12. In a network built through [_plan(D, W)] the classifier takes
    [4W] features, while the channels that leave the blocks are [4W] only
    when there is a block, that is for [D >= 8]; for the smaller depths
    [_plan] accepts the network has no block and the first convolution
    passes [W] channels to a classifier that takes [4W].  The two agree
    exactly when [D >= 8] or [W = 0]. *)
Theorem cifar_resnet_classifier_width
        (D W num_classes : Z) (dense_classifier : bool)
        (Hplan : ((D - 2) mod 3 = 0)%Z) :
  exists net,
    cifar_resnet D W num_classes dense_classifier = inr net /\
    in_features_of (fc net) = (4 * W)%Z /\
    channels_after (out_channels_of (conv net)) (blocks net) =
      (if (8 <=? D)%Z then 4 * W else W)%Z /\
    (in_features_of (fc net) =
     channels_after (out_channels_of (conv net)) (blocks net) <->
     (8 <= D)%Z \/ W = 0%Z).
Proof.
  destruct (cifar_resnet_summary D W num_classes dense_classifier Hplan)
    as [net [Hnet [_ [Hfc Hch]]]].
  exists net. split; [exact Hnet|]. split; [exact Hfc|]. split; [exact Hch|].
  rewrite Hfc, Hch.
  destruct (8 <=? D)%Z eqn:E8;
    [apply Z.leb_le in E8 | apply Z.leb_gt in E8]; split; intros; lia.
Qed.

Lemma cifar_resnet_classifier_width_witness :
  exists net, cifar_resnet 5 16 10 false = inr net /\
              in_features_of (fc net) = 64%Z /\
              channels_after (out_channels_of (conv net)) (blocks net) = 16%Z.
Proof.
  destruct (@cifar_resnet_classifier_width 5 16 10 false eq_refl)
    as [net [Hnet [Hfc [Hch _]]]].
  exists net. split; [exact Hnet|]. split; [exact Hfc | exact Hch].
Defined.

Lemma cifar_resnet_exact (D W num_classes : Z) (dense_classifier : bool) :
  ((D - 2) mod 6 = 0)%Z -> (8 <= D)%Z ->
  exists net,
    cifar_resnet D W num_classes dense_classifier = inr net /\
    depth net = D /\
    in_features_of (fc net) =
    channels_after (out_channels_of (conv net)) (blocks net).
Proof.
  intros H6 H8.
  assert (H3 : ((D - 2) mod 3 = 0)%Z).
  { pose proof (Z.div_mod (D - 2) 6 ltac:(lia)) as Hdm.
    rewrite H6 in Hdm.
    replace (D - 2)%Z with (2 * ((D - 2) / 6) * 3)%Z by lia.
    apply Z.mod_mul. lia. }
  destruct (cifar_resnet_summary D W num_classes dense_classifier H3)
    as [net [Hnet [Hd [Hfc Hch]]]].
  exists net. split; [exact Hnet|]. split.
  - rewrite Hd.
    pose proof (Z.div_mod (D - 2) 6 ltac:(lia)) as Hdm.
    assert (0 <= (D - 2) / 6)%Z by (apply Z.div_pos; lia). lia.
  - rewrite Hfc, Hch.
    destruct (8 <=? D)%Z eqn:E8; [reflexivity | apply Z.leb_gt in E8; lia].
Qed.

(** X13. Each of the twelve named constructors, [resnet20] to
    [wide_resnet1202], called with a positive [num_classes] and either value
    of [dense_classifier], builds a network without raising, with as many
    layers as its name says and a classifier that takes the channels the
    last block gives. *)
Theorem named_resnets_have_their_depth
        (num_classes : Z) (dense_classifier : bool)
        (Hclasses : (0 < num_classes)%Z) :
  Forall (fun cd : (Z -> bool -> error + resnet) * Z =>
            exists net,
              fst cd num_classes dense_classifier = inr net /\
              depth net = snd cd /\
              in_features_of (fc net) =
              channels_after (out_channels_of (conv net)) (blocks net))
         [(resnet20, 20); (resnet32, 32); (resnet44, 44); (resnet56, 56);
          (resnet110, 110); (resnet1202, 1202);
          (wide_resnet20, 20); (wide_resnet32, 32); (wide_resnet44, 44);
          (wide_resnet56, 56); (wide_resnet110, 110);
          (wide_resnet1202, 1202)]%Z.
Proof.
  repeat (apply Forall_cons;
          [cbn [fst snd]; apply cifar_resnet_exact; [reflexivity | lia]|]).
  apply Forall_nil.
Qed.

Lemma named_resnets_have_their_depth_witness :
  (0 < 10)%Z /\
  exists net, resnet20 10 true = inr net /\ depth net = 20%Z.
Proof.
  assert (H : (0 < 10)%Z) by reflexivity.
  split; [exact H|].
  destruct (Forall_inv (named_resnets_have_their_depth true H))
    as [net [Hnet [Hd _]]].
  exists net. split; [exact Hnet | exact Hd].
Defined.
End lottery_resnet_facts.

(** * [ResNet2] *)

Module resnet2_facts.
Import resnet2_model.

Lemma later_blocks_ok (norm : norm_class) (planes blocks d : Z)
      (la : string) (indices : list nat) (acc : list basic_block) :
  (d <= 1)%Z ->
  later_blocks {| _norm_layer := norm; inplanes := planes; dilation := d;
                  groups := 1; base_width := 64 |}
               planes blocks la indices acc =
  inr (acc ++ repeat (later_block norm planes) (List.length indices)).
Proof.
  intros Hd. revert acc.
  induction indices as [|i rest IH]; intros acc; simpl.
  - rewrite app_nil_r. reflexivity.
  - unfold BasicBlock2. simpl.
    destruct (1 <? d)%Z eqn:E; [apply Z.ltb_lt in E; lia|].
    simpl. rewrite IH, <- app_assoc. reflexivity.
Qed.

Lemma later_blocks_dilated (norm : norm_class) (ip planes blocks d : Z)
      (la : string) (i : nat) (rest : list nat) (acc : list basic_block) :
  (1 < d)%Z ->
  later_blocks {| _norm_layer := norm; inplanes := ip; dilation := d;
                  groups := 1; base_width := 64 |}
               planes blocks la (i :: rest) acc =
  inl NotImplementedError.
Proof.
  intros Hd. simpl. unfold BasicBlock2. simpl.
  apply Z.ltb_lt in Hd. rewrite Hd. reflexivity.
Qed.

Lemma range_from_1_length (blocks : Z) :
  List.length (range_from_1 blocks) = Z.to_nat (blocks - 1).
Proof. unfold range_from_1. apply length_seq. Qed.

(** What [_make_layer] does on an object with [groups = 1] and
    [base_width = 64]. *)
Lemma make_layer_spec (norm : norm_class) (ip d planes blocks str : Z)
      (dilate : bool) (la : string) :
  _make_layer {| _norm_layer := norm; inplanes := ip; dilation := d;
                 groups := 1; base_width := 64 |}
              planes blocks str dilate la =
  let d' := if dilate then (d * str)%Z else d in
  let str' := if dilate then 1%Z else str in
  if (1 <? d)%Z then inl NotImplementedError
  else if (1 <? blocks)%Z && (1 <? d')%Z then inl NotImplementedError
  else inr (made_layer norm ip planes blocks str',
            {| _norm_layer := norm; inplanes := planes; dilation := d';
               groups := 1; base_width := 64 |}).
Proof.
  assert (Hgo : forall first d',
    (later_blocks {| _norm_layer := norm; inplanes := planes;
                     dilation := d'; groups := 1; base_width := 64 |}
                  planes blocks la (range_from_1 blocks) [first]) =
    (if (1 <? blocks)%Z && (1 <? d')%Z then inl NotImplementedError
     else inr (first ::
               repeat (later_block norm planes) (Z.to_nat (blocks - 1))))).
  { intros first d'. destruct (1 <? d')%Z eqn:Ed'.
    - destruct (1 <? blocks)%Z eqn:Eb; simpl.
      + apply Z.ltb_lt in Eb. apply Z.ltb_lt in Ed'.
        unfold range_from_1.
        destruct (Z.to_nat (blocks - 1)) as [|k] eqn:Ek; [lia|].
        simpl seq. apply later_blocks_dilated. exact Ed'.
      + apply Z.ltb_ge in Eb. unfold range_from_1.
        replace (Z.to_nat (blocks - 1)) with 0%nat by lia. reflexivity.
    - rewrite andb_false_r. apply Z.ltb_ge in Ed'.
      rewrite later_blocks_ok by exact Ed'.
      rewrite range_from_1_length. reflexivity. }
  unfold _make_layer, BasicBlock2, expansion.
  destruct dilate;
    cbv beta iota zeta delta [set_dilation set_inplanes groups base_width
                              dilation inplanes _norm_layer];
    rewrite !Z.mul_1_r;
    change (1 =? 1)%Z with true; change (64 =? 64)%Z with true;
    cbn [negb orb];
    (destruct (1 <? d)%Z eqn:Ed; [reflexivity|]);
    cbv beta iota delta [bind]; rewrite Hgo; rewrite ?Ed;
    match goal with
    | |- context [if ?c then inl NotImplementedError else _] =>
        destruct c; reflexivity
    end.
Qed.

Ltac make_layer_step :=
  rewrite make_layer_spec; cbv beta iota zeta;
  repeat match goal with
         | |- context [(1 <? 1)%Z] => change (1 <? 1)%Z with false
         | |- context [(1 * 2)%Z] => change (1 * 2)%Z with 2%Z
         | |- context [(2 * 2)%Z] => change (2 * 2)%Z with 4%Z
         | |- context [(1 <? 2)%Z] => change (1 <? 2)%Z with true
         | |- context [(1 <? 4)%Z] => change (1 <? 4)%Z with true
         end;
  rewrite ?andb_false_r, ?andb_true_r; cbv beta iota zeta.

Lemma ResNet2_dilated (l1 l2 l3 l4 : Z) (rest : list Z)
      (num_channels widen : Z) (r0 r1 r2 : bool)
      (norm_layer : option norm_class) (la : string) (num_classes img_dim : Z) :
  r0 || r1 || (r2 && (1 <? l4)%Z) = true ->
  ResNet2 (l1 :: l2 :: l3 :: l4 :: rest) num_channels 1 widen 64
          (Some [r0; r1; r2]) norm_layer la num_classes img_dim =
  inl NotImplementedError.
Proof.
  intros Hc. unfold ResNet2.
  cbn [List.length Nat.eqb negb index nth_error nth].
  cbv beta iota zeta delta [bind].
  destruct r0, r1, r2; cbn [orb andb] in Hc; try discriminate Hc;
    repeat (make_layer_step;
            try match goal with
                | |- context [if (1 <? ?l)%Z then inl NotImplementedError else _] =>
                    destruct (1 <? l)%Z eqn:?
                end;
            cbv beta iota zeta; try reflexivity; try discriminate).
Qed.

Lemma ResNet2_built (l1 l2 l3 l4 : Z) (rest : list Z)
      (num_channels widen : Z) (r2 : bool)
      (norm_layer : option norm_class) (la : string) (num_classes img_dim : Z) :
  r2 && (1 <? l4)%Z = false ->
  exists net,
    ResNet2 (l1 :: l2 :: l3 :: l4 :: rest) num_channels 1 widen 64
            (Some [false; false; r2]) norm_layer la num_classes img_dim =
    inr net /\
    let norm :=
      match norm_layer with None => torch_BatchNorm2d | Some c => c end in
    let w := (64 * widen)%Z in
    layer1 net = made_layer norm w w l1 1 /\
    layer2 net = made_layer norm w (w * 2) l2 2 /\
    layer3 net = made_layer norm (w * 2) (w * 2 * 2) l3 2 /\
    layer4 net = made_layer norm (w * 2 * 2) (w * 2 * 2 * 2) l4
                            (if r2 then 1 else 2) /\
    fc net = Linear 512 num_classes /\
    final_inplanes net = (w * 2 * 2 * 2)%Z.
Proof.
  intros Hc. unfold ResNet2.
  cbn [List.length Nat.eqb negb index nth_error nth].
  cbv beta iota zeta delta [bind].
  do 3 make_layer_step.
  destruct r2; cbn [andb] in Hc; make_layer_step; rewrite ?Hc;
    cbv beta iota zeta; eexists; (split; [reflexivity|]);
    cbn [layer1 layer2 layer3 layer4 fc final_inplanes inplanes];
    repeat split.
Qed.

(** X14. With [BasicBlock2], [groups = 1], [width_per_group = 64], four
    block counts and positive sizes ([num_channels], [widen],
    [num_classes]), [ResNet2] raises [NotImplementedError] exactly when
    dilation is asked for the second or the third strided layer, or for the
    last one while that layer has two blocks or more; otherwise it builds
    the network.  Left at [None], [replace_stride_with_dilation] never makes
    it raise. *)
Theorem ResNet2_dilation_unsupported
        (l1 l2 l3 l4 : Z) (rest : list Z) (num_channels widen : Z)
        (r0 r1 r2 : bool) (norm_layer : option norm_class) (la : string)
        (num_classes img_dim : Z)
        (Hchannels : (0 < num_channels)%Z) (Hwiden : (0 < widen)%Z)
        (Hclasses : (0 < num_classes)%Z) :
  (ResNet2 (l1 :: l2 :: l3 :: l4 :: rest) num_channels 1 widen 64
           (Some [r0; r1; r2]) norm_layer la num_classes img_dim =
   inl NotImplementedError <->
   r0 = true \/ r1 = true \/ (r2 = true /\ (2 <= l4)%Z)) /\
  (exists net,
      ResNet2 (l1 :: l2 :: l3 :: l4 :: rest) num_channels 1 widen 64
              None norm_layer la num_classes img_dim = inr net).
Proof.
  split.
  - split.
    + intros H.
      destruct r0; [left; reflexivity|].
      destruct r1; [right; left; reflexivity|].
      destruct (r2 && (1 <? l4)%Z) eqn:E.
      * apply andb_true_iff in E. destruct E as [E2 E4].
        apply Z.ltb_lt in E4. right. right. split; [exact E2 | lia].
      * destruct (ResNet2_built l1 l2 l3 l4 rest num_channels widen r2
                                norm_layer la num_classes img_dim E)
          as [net [Hnet _]].
        rewrite Hnet in H. discriminate H.
    + intros H. apply ResNet2_dilated.
      destruct H as [H|[H|[H2 H4]]]; subst.
      * reflexivity.
      * apply orb_true_iff. left. apply orb_true_r.
      * apply orb_true_iff. right. apply Z.ltb_lt. lia.
  - destruct (ResNet2_built l1 l2 l3 l4 rest num_channels widen false
                            norm_layer la num_classes img_dim eq_refl)
      as [net [Hnet _]].
    exists net. exact Hnet.
Qed.

Lemma ResNet2_dilation_unsupported_witness :
  (0 < 3)%Z /\ (0 < 1)%Z /\ (0 < 10)%Z /\
  ResNet2 [3; 4; 6; 3]%Z 3 1 1 64 (Some [false; false; true]) None "relu"
          10 32 = inl NotImplementedError.
Proof.
  assert (H3 : (0 < 3)%Z) by reflexivity.
  assert (H1 : (0 < 1)%Z) by reflexivity.
  assert (H10 : (0 < 10)%Z) by reflexivity.
  split; [exact H3|]. split; [exact H1|]. split; [exact H10|].
  apply (proj1 (@ResNet2_dilation_unsupported 3 4 6 3 [] 3 1 false false true
                                              None "relu" 10 32 H3 H1 H10)).
  right. right. split; [reflexivity | lia].
Defined.

Lemma made_layer_length (norm : norm_class) (ip planes blocks str : Z) :
  Z.of_nat (List.length (made_layer norm ip planes blocks str)) =
  Z.max 1 blocks.
Proof.
  unfold made_layer. cbn [List.length]. rewrite repeat_length. lia.
Qed.

(** X15. What [ResNet2] builds with [BasicBlock2], [groups = 1] and
    [width_per_group = 64] when it does not raise: layer [k] holds
    [max(1, layers[k])] blocks, so a count of zero still gives one block;
    the layers take [64 widen] channels to [64 widen], [128 widen],
    [256 widen] and [512 widen]; only the first block of a layer can carry a
    [downsample]; and the classifier, built for 512 features, fits the
    [512 widen] channels that arrive exactly when [widen = 1]. *)
Theorem ResNet2_structure
        (l1 l2 l3 l4 : Z) (rest : list Z) (num_channels widen : Z) (r2 : bool)
        (norm_layer : option norm_class) (la : string)
        (num_classes img_dim : Z)
        (Hdil : r2 && (1 <? l4)%Z = false) :
  exists net,
    ResNet2 (l1 :: l2 :: l3 :: l4 :: rest) num_channels 1 widen 64
            (Some [false; false; r2]) norm_layer la num_classes img_dim =
    inr net /\
    let norm :=
      match norm_layer with None => torch_BatchNorm2d | Some c => c end in
    let w := (64 * widen)%Z in
    layer1 net = made_layer norm w w l1 1 /\
    layer2 net = made_layer norm w (w * 2) l2 2 /\
    layer3 net = made_layer norm (w * 2) (w * 2 * 2) l3 2 /\
    layer4 net = made_layer norm (w * 2 * 2) (w * 2 * 2 * 2) l4
                            (if r2 then 1 else 2) /\
    map (fun l => Z.of_nat (List.length l))
        [layer1 net; layer2 net; layer3 net; layer4 net] =
      [Z.max 1 l1; Z.max 1 l2; Z.max 1 l3; Z.max 1 l4] /\
    Forall (fun l => Forall (fun b => downsample b = None) (tl l))
           [layer1 net; layer2 net; layer3 net; layer4 net] /\
    final_inplanes net = (512 * widen)%Z /\
    in_features_of (fc net) = 512%Z /\
    (in_features_of (fc net) = final_inplanes net <-> widen = 1%Z).
Proof.
  destruct (ResNet2_built l1 l2 l3 l4 rest num_channels widen r2
                          norm_layer la num_classes img_dim Hdil)
    as [net [Hnet [H1 [H2 [H3 [H4 [Hfc Hfin]]]]]]].
  exists net. split; [exact Hnet|]. cbv zeta.
  split; [exact H1|]. split; [exact H2|]. split; [exact H3|].
  split; [exact H4|]. split.
  - cbn [map]. rewrite H1, H2, H3, H4, !made_layer_length. reflexivity.
  - split.
    + rewrite H1, H2, H3, H4. unfold made_layer. cbn [tl].
      repeat (apply Forall_cons;
              [apply Forall_forall; intros b Hb; apply repeat_spec in Hb;
               subst b; reflexivity|]).
      apply Forall_nil.
    + rewrite Hfc, Hfin. cbn [in_features_of].
      split; [lia|]. split; [reflexivity|]. split; intros; lia.
Qed.

Lemma ResNet2_structure_witness :
  exists net, resnet34 10 = inr net /\
              map (fun l => Z.of_nat (List.length l))
                  [layer1 net; layer2 net; layer3 net; layer4 net] =
              [3; 4; 6; 3]%Z.
Proof.
  destruct (@ResNet2_structure 3 4 6 3 [] 3 1 false None "relu" 10 32 eq_refl)
    as [net [Hnet [_ [_ [_ [_ [Hlen _]]]]]]].
  exists net. split; [exact Hnet | exact Hlen].
Defined.

(** X16. What [ResNet2] rejects, in this order: a
    [replace_stride_with_dilation] that does not have three entries
    ([ValueError], before any layer is built); then, the stem being built
    for a positive [num_channels] and a positive [width_per_group * widen],
    an empty [layers] ([IndexError]); and, with [BasicBlock2], any [groups]
    other than 1 or [width_per_group] other than 64 ([ValueError], raised by
    the first block). *)
Theorem ResNet2_rejects
        (layers : list Z) (num_channels groups widen width_per_group : Z)
        (replace : list bool) (norm_layer : option norm_class) (la : string)
        (num_classes img_dim : Z) :
  (List.length replace <> 3%nat ->
   ResNet2 layers num_channels groups widen width_per_group (Some replace)
           norm_layer la num_classes img_dim = inl ValueError) /\
  (List.length replace = 3%nat ->
   (0 < num_channels)%Z -> (0 < width_per_group * widen)%Z ->
   ResNet2 [] num_channels groups widen width_per_group (Some replace)
           norm_layer la num_classes img_dim = inl IndexError) /\
  (List.length replace = 3%nat ->
   (0 < num_channels)%Z -> (0 < width_per_group * widen)%Z ->
   layers <> [] ->
   groups <> 1%Z \/ width_per_group <> 64%Z ->
   ResNet2 layers num_channels groups widen width_per_group (Some replace)
           norm_layer la num_classes img_dim = inl ValueError).
Proof.
  split; [|split].
  - intros H. unfold ResNet2. apply Nat.eqb_neq in H. rewrite H. reflexivity.
  - intros H _ _. unfold ResNet2. rewrite H. reflexivity.
  - intros H _ _ Hl Hg. unfold ResNet2. rewrite H.
    destruct layers as [|l1 rest]; [contradiction|].
    cbn [Nat.eqb negb index nth_error]. cbv beta iota zeta delta [bind].
    unfold _make_layer, BasicBlock2.
    cbv beta iota zeta delta [resnet2_model.groups resnet2_model.base_width].
    assert (E : negb (groups =? 1)%Z || negb (width_per_group =? 64)%Z = true).
    { apply orb_true_iff. destruct Hg as [Hg|Hg]; [left | right];
        apply negb_true_iff; apply Z.eqb_neq; exact Hg. }
    rewrite E. reflexivity.
Qed.

Lemma ResNet2_rejects_witness :
  ResNet2 [3; 4; 6; 3]%Z 3 2 1 64 (Some [false; false; false]) None "relu"
          10 32 = inl ValueError /\
  ResNet2 [3; 4; 6; 3]%Z 3 1 1 64 (Some [false; false]) None "relu"
          10 32 = inl ValueError.
Proof.
  split.
  - apply (proj2 (proj2 (ResNet2_rejects [3; 4; 6; 3]%Z 3 2 1 64
                           [false; false; false] None "relu" 10 32)));
      [reflexivity | reflexivity | reflexivity | discriminate
      | left; discriminate].
  - apply (proj1 (ResNet2_rejects [3; 4; 6; 3]%Z 3 1 1 64
                           [false; false] None "relu" 10 32)).
    discriminate.
Defined.
End resnet2_facts.

(** * Names and coverage *)

Lemma prefix_app (sub s : string) :
  String.prefix sub s = true <-> exists post, s = (sub ++ post)%string.
Proof.
  revert s. induction sub as [|c sub IH]; intros s.
  - destruct s; simpl; (split; [intros _; eexists; reflexivity | reflexivity]).
  - destruct s as [|c' s]; simpl.
    + split; [discriminate|]. intros [post H]. discriminate H.
    + destruct (Ascii.ascii_dec c c') as [E|Hne]; [subst c'|].
      * rewrite IH. split; intros [post H]; exists post; congruence.
      * split; [discriminate|]. intros [post H]. congruence.
Qed.

(** X18. The test ["mask" in name] (on the qualified name) holds exactly
    when the name can be cut around an occurrence of [mask]: the text
    may sit anywhere in the name, in the name of the buffer or in the name
    of a module above it. *)
Theorem mask_named_iff (name : string) (t : tensor) :
  mask_named (name, t) = true <->
  exists pre post, name = (pre ++ "mask" ++ post)%string.
Proof.
  unfold mask_named. cbn [fst].
  generalize "mask" as sub. intros sub.
  induction name as [|c name IH].
  - destruct sub as [|a sub]; simpl.
    + split; [intros _; exists "", ""; reflexivity | reflexivity].
    + split; [discriminate|].
      intros [[|b pre] [post H]]; discriminate H.
  - cbn [str_in]. rewrite orb_true_iff, prefix_app, IH. split.
    + intros [[post H]|[pre [post H]]].
      * exists "", post. exact H.
      * exists (String c pre), post. simpl. rewrite H. reflexivity.
    + intros [[|a pre] [post H]].
      * left. exists post. exact H.
      * right. simpl in H. injection H as _ H. exists pre, post. exact H.
Qed.

Lemma mask_named_iff_witness :
  mask_named ("blocks.0.conv1.weight_mask", 7) = true.
Proof.
  apply (proj2 (mask_named_iff "blocks.0.conv1.weight_mask" 7)).
  exists "blocks.0.conv1.weight_", "". reflexivity.
Defined.

